(** * Stimulus: the Java (JNI) code generators and the generator registry

    A shallow embedding of [src/stimulus/generators/java.py] and
    [src/stimulus/generators/registry.py].

    Python text is modelled by [string] (a sequence of 8-bit characters);
    case conversion acts on the ASCII letters only, which is what Python does
    on ASCII text such as C identifiers.  Python dictionaries whose order
    matters (the parameters of a function) are association lists in
    declaration order; the others (the type table, the registry, the
    per-mode conversion tables) are [gmap]s.  Exceptions are explicit: every
    fallible function returns a [result]. *)

From Stdlib Require Import Ascii String DecimalString.
From stdpp Require Import base option list gmap strings.

(** ** Text primitives *)

Module Str.

(** The line feed, written [\n] in the source. *)
Definition nl : string := String (ascii_of_nat 10) EmptyString.

(** ASCII text: every character is below 128.  On such text Python's
    case conversions are those of the ASCII letters; on other text they
    are not modelled here (they can change the length of the text), and
    every statement about converted text assumes that it is ASCII. *)
Definition is_ascii_char (c : ascii) : bool := (nat_of_ascii c <? 128)%nat.

Fixpoint is_ascii (s : string) : bool :=
  match s with
  | EmptyString => true
  | String c r => is_ascii_char c && is_ascii r
  end.

(** [str.upper()] and [str.lower()] on one ASCII character. *)
Definition upper_char (c : ascii) : ascii :=
  let n := nat_of_ascii c in
  if (97 <=? n)%nat && (n <=? 122)%nat then ascii_of_nat (n - 32) else c.

Definition lower_char (c : ascii) : ascii :=
  let n := nat_of_ascii c in
  if (65 <=? n)%nat && (n <=? 90)%nat then ascii_of_nat (n + 32) else c.

Fixpoint lower (s : string) : string :=
  match s with
  | EmptyString => EmptyString
  | String c r => String (lower_char c) (lower r)
  end.

(** [s.capitalize()] on ASCII text: first character upper-cased, the rest
    lower-cased. *)
Definition capitalize (s : string) : string :=
  match s with
  | EmptyString => EmptyString
  | String c r => String (upper_char c) (lower r)
  end.

(** [s[n:]] *)
Fixpoint drop (n : nat) (s : string) : string :=
  match n, s with
  | O, _ => s
  | S _, EmptyString => EmptyString
  | S n', String _ r => drop n' r
  end.

(** [s.startswith(p)] *)
Fixpoint starts_with (p s : string) : bool :=
  match p, s with
  | EmptyString, _ => true
  | String a p', String b s' => if ascii_dec a b then starts_with p' s' else false
  | String _ _, EmptyString => false
  end.

(** [needle in hay] *)
Fixpoint contains (needle hay : string) : bool :=
  starts_with needle hay ||
  match hay with
  | EmptyString => false
  | String _ r => contains needle r
  end.

(** [s.replace(old, new)] for a non-empty [old]: the occurrences are
    replaced from left to right and do not overlap.  [skip] counts the
    characters of a matched occurrence that are still to be dropped. *)
Fixpoint replace_from (skip : nat) (old new s : string) : string :=
  match s with
  | EmptyString => EmptyString
  | String c r =>
      match skip with
      | S k => replace_from k old new r
      | O =>
          if starts_with old s
          then new +:+ replace_from (String.length old - 1) old new r
          else String c (replace_from O old new r)
      end
  end.

Definition replace (old new s : string) : string := replace_from O old new s.

(** [sep.join(l)] *)
Definition join (sep : string) (l : list string) : string := String.concat sep l.

(** [s.split(c)] for a one-character separator; the result is never
    empty.  It is returned as its head and its tail. *)
Fixpoint split (sep : ascii) (s : string) : string * list string :=
  match s with
  | EmptyString => (EmptyString, [])
  | String c r =>
      let '(h, t) := split sep r in
      if ascii_dec c sep then (EmptyString, h :: t) else (String c h, t)
  end.

(** Left-justification in a field of [n] characters, [%-ns]. *)
Fixpoint spaces (n : nat) : string :=
  match n with
  | O => EmptyString
  | S k => String " "%char (spaces k)
  end.

Definition ljust (n : nat) (s : string) : string :=
  s +:+ spaces (n - String.length s).

End Str.

(** ** Exceptions *)

(** The exceptions the modelled code can raise.  [StimulusError] carries its
    message; the others are Python's built-in ones. *)
Inductive exn : Type :=
| StimulusError (msg : string)
| KeyError
| IndexError
| OSError.

Inductive result (A : Type) : Type :=
| Ok (a : A)
| Raise (e : exn).
Arguments Ok {A} a.
Arguments Raise {A} e.

(** Sequencing: an exception raised by the first computation ends the
    whole one. *)
Definition bind {A B} (m : result A) (k : A → result B) : result B :=
  match m with
  | Ok a => k a
  | Raise e => Raise e
  end.

Notation "x <- m ; k" := (bind m (λ x, k))
  (at level 20, m at level 100, k at level 200, only parsing).
Notation "' p <- m ; k" := (bind m (λ x, match x with p => k end))
  (at level 20, p pattern, m at level 100, k at level 200, only parsing).

(** [d[k]] on a dictionary: [KeyError] when the key is missing. *)
Definition subscript {V} (d : gmap string V) (k : string) : result V :=
  match d !! k with
  | Some v => Ok v
  | None => Raise KeyError
  end.

(** [[f(x) for x in l]] where [f] may raise. *)
Fixpoint for_each {A B} (f : A → result B) (l : list A) : result (list B) :=
  match l with
  | [] => Ok []
  | x :: r => y <- f x; ys <- for_each f r; Ok (y :: ys)
  end.

(** ** Data model *)

(** Modelled from the spec: [ParamMode] is declared in
    [generators/base.py], which is not part of the sources at hand.  A
    parameter is passed in one of three modes. *)
Inductive ParamMode : Type := IN | OUT | INOUT.

#[global] Instance ParamMode_eq_dec : EqDecision ParamMode.
Proof. solve_decision. Defined.

(** Modelled from the spec: [ParamSpec] is declared in
    [generators/base.py] too.  A parameter has a type id and a mode; its
    name is the key under which the function holds it. *)
Record ParamSpec : Type := {
  ptype : string;
  mode : ParamMode;
}.

(** Modelled from the spec: the property [mode_str] of [ParamSpec], the
    name of the mode, under which the type table files its conversions. *)
Definition mode_str (p : ParamSpec) : string :=
  match mode p with
  | IN => "IN"
  | OUT => "OUT"
  | INOUT => "INOUT"
  end.

(** Modelled from the spec: the property [is_output] of [ParamSpec], which
    holds for the modes OUT and INOUT. *)
Definition is_output (p : ParamSpec) : bool :=
  match mode p with
  | IN => false
  | OUT | INOUT => true
  end.

(** The parameters of a function: an ordered dictionary from names to
    specifications, in declaration order. *)
Abbreviation Params := (list (string * ParamSpec)).

(** The parameters that are outputs, [retpars] in [chunk_outconv]. *)
Definition retpars (ps : Params) : Params := filter (λ np, is_output np.2 = true) ps.

(** One entry of the type table.  Every key is optional; INCONV and OUTCONV
    are themselves dictionaries from mode names to templates. *)
Record TypeDesc : Type := {
  CTYPE : option string;
  JAVATYPE : option string;
  CDECL : option string;
  JAVADECL : option string;
  CALL : option string;
  INCONV : option (gmap string string);
  OUTCONV : option (gmap string string);
}.

(** The empty dictionary [{}]. *)
Definition no_desc : TypeDesc :=
  {| CTYPE := None; JAVATYPE := None; CDECL := None; JAVADECL := None;
     CALL := None; INCONV := None; OUTCONV := None |}.

Abbreviation TypeTable := (gmap string TypeDesc).

(** The two values [type_param] takes in the generators. *)
Inductive TypeParam : Type := TP_JAVATYPE | TP_CTYPE.

Definition type_param_str (tp : TypeParam) : string :=
  match tp with
  | TP_JAVATYPE => "JAVATYPE"
  | TP_CTYPE => "CTYPE"
  end.

(** [tdesc[type_param]], [None] when [type_param not in tdesc]. *)
Definition repr (tp : TypeParam) (t : TypeDesc) : option string :=
  match tp with
  | TP_JAVATYPE => JAVATYPE t
  | TP_CTYPE => CTYPE t
  end.

(** Modelled from the spec: the function descriptor and what the base
    class answers about a function ([get_function_descriptor],
    [get_parameters_for_function], [get_dependencies_for_function]) are not
    part of the sources at hand.  A function has a native name, an optional
    display name (the key NAME-JAVA), an optional return type id, its
    parameters in declaration order, and for some parameters the ordered
    list of the parameters they depend on. *)
Record FunctionDescriptor : Type := {
  fname : string;
  NAME_JAVA : option string;
  return_type : option string;
  params : Params;
  deps : gmap string (list string);
}.

(** Python truthiness of [spec.return_type]: neither [None] nor empty. *)
Definition truthy (o : option string) : bool :=
  match o with
  | Some (String _ _) => true
  | _ => false
  end.

(** The same descriptor with no return type declared. *)
Definition without_return_type (d : FunctionDescriptor) : FunctionDescriptor :=
  {| fname := fname d; NAME_JAVA := NAME_JAVA d; return_type := None;
     params := params d; deps := deps d |}.

(** The dictionary [get_function_metadata] returns. *)
Record Metadata : Type := {
  md_name : string;
  java_modifiers : string;
  md_return_type : string;
  argument_types : list string;
  self_name : option string;
  is_static : bool;
  is_constructor : bool;
}.

(** ** [camelcase] *)

Definition camelcase (s : string) : string :=
  let '(first, parts) := Str.split "_"%char s in
  Str.join EmptyString (first :: map Str.capitalize parts).

(** ** [JavaCodeGenerator.get_function_metadata] *)

Module JavaCodeGenerator.

Definition package : string := "net.sf.igraph".

(** [spec.get("NAME-JAVA", camelcase(name[7:]))] *)
Definition base_name (d : FunctionDescriptor) : string :=
  default (camelcase (Str.drop 7 (fname d))) (NAME_JAVA d).

(** The lists [types["IN"]], [types["OUT"]] and [types["INOUT"]]. *)
Definition by_mode (m : ParamMode) (ps : Params) : list ParamSpec :=
  filter (λ p, mode p = m) (ps.*2).

(** [l[0].type] *)
Definition head_type (l : list ParamSpec) : result string :=
  match l with
  | p :: _ => Ok (ptype p)
  | [] => Raise IndexError
  end.

Definition unsupported_calling_convention (name : string) : exn :=
  StimulusError (name +:+ ": calling convention unsupported yet").

(** Lines 59 to 74: the name of the type the method returns. *)
Definition return_type_name (d : FunctionDescriptor) : result string :=
  let outs := by_mode OUT (params d) in
  let inouts := by_mode INOUT (params d) in
  if (length outs + length inouts =? 1)%nat then
    if (0 <? length outs)%nat then head_type outs else head_type inouts
  else if (length outs + length inouts =? 0)%nat && truthy (return_type d) then
    Ok (default EmptyString (return_type d))
  else Raise (unsupported_calling_convention (base_name d)).

Definition unknown_input_type (name type_name : string) (tp : TypeParam) : exn :=
  StimulusError (name +:+ ": unknown input type " +:+ type_name +:+
                 " (needs " +:+ type_param_str tp +:+ "), skipping").

Definition unknown_return_type (name type_name : string) : exn :=
  StimulusError (name +:+ ": unknown return type " +:+ type_name +:+ ", skipping").

(** Lines 77 to 96: the loop over the input parameters.  [self] is
    [data["self_name"]] when [found_self] is set, [args] is
    [method_arguments]. *)
Fixpoint input_loop (types : TypeTable) (tp : TypeParam) (name : string)
    (ps : Params) (self : option string) (args : list string)
    : result (option string * list string) :=
  match ps with
  | [] => Ok (self, args)
  | (p, spec) :: rest =>
      if decide (mode spec = IN) then
        if bool_decide (self = None) && bool_decide (ptype spec = "GRAPH") then
          input_loop types tp name rest (Some p) args
        else
          match repr tp (default no_desc (types !! ptype spec)) with
          | None => Raise (unknown_input_type name (ptype spec) tp)
          | Some r =>
              input_loop types tp name rest self
                (args ++ [Str.join " " [r; p]])
          end
      else input_loop types tp name rest self args
  end.

(** Lines 98 to 104: the loop that looks for an OUT parameter of type
    GRAPH. *)
Fixpoint output_self (ps : Params) : option string :=
  match ps with
  | [] => None
  | (p, spec) :: rest =>
      if bool_decide (mode spec = OUT) && bool_decide (ptype spec = "GRAPH")
      then Some p
      else output_self rest
  end.

(** [s[0].upper() + s[1:]] *)
Definition upper_first (s : string) : result string :=
  match s with
  | EmptyString => Raise IndexError
  | String c r => Ok (String (Str.upper_char c) r)
  end.

Definition get_function_metadata (types : TypeTable) (d : FunctionDescriptor)
    (tp : TypeParam) : result Metadata :=
  let name := base_name d in
  rtn <- return_type_name d;
  '(self, method_arguments) <- input_loop types tp name (params d) None [];
  let self := if self is Some _ then self else output_self (params d) in
  match repr tp (default no_desc (types !! rtn)) with
  | None => Raise (unknown_return_type name rtn)
  | Some rt =>
      let found_self := bool_decide (is_Some self) in
      name' <- (if found_self then Ok name else upper_first name);
      Ok {| md_name := name';
            java_modifiers :=
              Str.join " " (["public"] ++ if found_self then [] else ["static"]);
            md_return_type := rt;
            argument_types := method_arguments;
            self_name := self;
            is_static := negb found_self;
            is_constructor := false |}
  end.

End JavaCodeGenerator.

(** ** [JavaJavaCodeGenerator]: the declarations of the native methods *)

Module JavaJavaCodeGenerator.
Import JavaCodeGenerator.

(** The line written for a function whose metadata is [md]. *)
Definition signature (md : Metadata) : string :=
  "    " +:+ java_modifiers md +:+ " native " +:+ md_return_type md +:+ " "
  +:+ md_name md +:+ "(" +:+ Str.join ", " (argument_types md) +:+ ");" +:+ Str.nl.

(** The line written when the metadata could not be computed. *)
Definition comment (msg : string) : string := "    // " +:+ msg +:+ Str.nl.

(** [generate_function]: [out] is the text written so far.  Only
    [StimulusError] is caught. *)
Definition generate_function (types : TypeTable) (d : FunctionDescriptor)
    (out : string) : result string :=
  match get_function_metadata types d TP_JAVATYPE with
  | Ok md => Ok (out +:+ signature md)
  | Raise (StimulusError msg) => Ok (out +:+ comment msg)
  | Raise e => Raise e
  end.

(** [for name in self.iter_functions(): self.generate_function(name, out)] *)
Fixpoint generate_functions (types : TypeTable) (fns : list FunctionDescriptor)
    (out : string) : result string :=
  match fns with
  | [] => Ok out
  | d :: rest => out' <- generate_function types d out; generate_functions types rest out'
  end.

Definition marker : string := "%STIMULUS%".

(** The loop over the lines of the template. *)
Fixpoint generate_lines (types : TypeTable) (fns : list FunctionDescriptor)
    (lines : list string) (out : string) : result string :=
  match lines with
  | [] => Ok out
  | line :: rest =>
      out' <- (if Str.contains marker line
              then generate_functions types fns out
              else Ok (out +:+ line));
      generate_lines types fns rest out'
  end.

Definition single_input_only : exn :=
  StimulusError "Java code generator supports only a single input".

(** [generate]: [fs] maps the path of a readable file to its lines, each
    with its line terminator. *)
Definition generate (types : TypeTable) (fns : list FunctionDescriptor)
    (fs : gmap string (list string)) (inputs : list string) (out : string)
    : result string :=
  if (1 <? length inputs)%nat then Raise single_input_only
  else
    match inputs with
    | [] => Raise IndexError
    | path :: _ =>
        match fs !! path with
        | None => Raise OSError
        | Some lines => generate_lines types fns lines out
        end
    end.

End JavaJavaCodeGenerator.

(** ** [JavaCCodeGenerator]: the JNI glue code *)

Module JavaCCodeGenerator.
Import JavaCodeGenerator.

(** What a run writes: the output stream and the error log. *)
Record Sink : Type := {
  out : string;
  log : list string;
}.

Definition write (s : string) (k : Sink) : Sink :=
  {| out := out k +:+ s; log := log k |}.

Definition log_error (s : string) (k : Sink) : Sink :=
  {| out := out k; log := log k ++ [s] |}.

(** [self.types[params[n].type]] *)
Definition type_of (types : TypeTable) (p : ParamSpec) : result TypeDesc :=
  subscript types (ptype p).

(** [self.types[spec.return_type]]; a missing return type is no key. *)
Definition return_desc (types : TypeTable) (d : FunctionDescriptor) : result TypeDesc :=
  match return_type d with
  | Some r => subscript types r
  | None => Raise KeyError
  end.

Definition non_empty (l : list string) : list string :=
  filter (λ s, s ≠ EmptyString) l.

(** *** The header *)

Definition chunk_header (types : TypeTable) (d : FunctionDescriptor) : result string :=
  data <- get_function_metadata types d TP_JAVATYPE;
  let funcname := "Java_" +:+ Str.replace "." "_" package +:+ "_Graph_" +:+ md_name data in
  first <- (if is_static data then Ok "jclass cls"
           else match self_name data with
                | Some s => Ok ("jobject " +:+ s)
                | None => Raise KeyError
                end);
  let argument_types := "JNIEnv *env" :: first :: argument_types data in
  Ok ("JNIEXPORT " +:+ md_return_type data +:+ " JNICALL " +:+ funcname
      +:+ "(" +:+ Str.join ", " argument_types +:+ ")").

(** *** The declarations *)

Definition do_cpar (types : TypeTable) (pname : string) (p : ParamSpec) : result string :=
  let cname := "c_" +:+ pname in
  t <- type_of types p;
  let decl :=
    match CDECL t, CTYPE t with
    | Some c, _ => "  " +:+ c
    | None, Some c => "  " +:+ c +:+ " " +:+ cname +:+ ";"
    | None, None => EmptyString
    end in
  Ok (Str.replace "%I%" pname (Str.replace "%C%" cname decl)).

Definition do_jpar (types : TypeTable) (pname : string) (p : ParamSpec) : result string :=
  let jname := "j_" +:+ pname in
  t <- type_of types p;
  let decl :=
    match JAVADECL t, JAVATYPE t with
    | Some c, _ => "  " +:+ c
    | None, Some c => "  " +:+ c +:+ " " +:+ jname +:+ ";"
    | None, None => EmptyString
    end in
  Ok (Str.replace "%I%" pname (Str.replace "%J%" jname decl)).

Definition chunk_declaration (types : TypeTable) (metadata : Metadata)
    (d : FunctionDescriptor) : result string :=
  inout <- for_each (λ np, do_cpar types np.1 np.2) (params d);
  outs <- for_each (λ np, do_jpar types np.1 np.2)
           (filter (λ np, mode np.2 = OUT) (params d));
  rt <- return_desc types d;
  let retdecl :=
    match CDECL rt, CTYPE rt with
    | Some c, _ => "  " +:+ c
    | None, Some c => "  " +:+ c +:+ " c__result;"
    | None, None => EmptyString
    end in
  let rnames := filter (λ np, is_output np.2 = true) (params d) in
  let rtname :=
    match rnames with
    | np :: _ => ptype np.2
    | [] => default EmptyString (return_type d)
    end in
  rt <- subscript types rtname;
  let jretdecl :=
    match JAVADECL rt, JAVATYPE rt with
    | Some c, _ => "  " +:+ c
    | None, Some c => "  " +:+ c +:+ " result;"
    | None, None => EmptyString
    end in
  let decls := inout ++ outs ++ [retdecl; jretdecl] in
  decls <- (if negb (is_static metadata) && bool_decide (rtname = "GRAPH") then
             match self_name metadata with
             | Some s =>
                 Ok (decls ++ ["  jclass cls = (" +:+ "*env)->GetObjectClass(env, "
                               +:+ s +:+ ");"])
             | None => Raise KeyError
             end
           else Ok decls);
  Ok (Str.join Str.nl (non_empty decls)).

(** *** The fixed hooks *)

Definition chunk_before : string := "  Java_igraph_before();".
Definition chunk_after : string := "  Java_igraph_after();".

(** *** The input conversions *)

(** [str(n)] *)
Definition str_of_nat (n : nat) : string := NilEmpty.string_of_uint (Nat.to_uint n).

(** The loop over [enumerate(deps)], entered at index [i]. *)
Fixpoint subst_deps (i : nat) (ds : list string) (inconv : string) : string :=
  match ds with
  | [] => inconv
  | dep :: rest =>
      subst_deps (S i) rest
        (Str.replace ("%C" +:+ str_of_nat (i + 1) +:+ "%") ("c_" +:+ dep) inconv)
  end.

Definition inconv_par (types : TypeTable) (d : FunctionDescriptor)
    (pname : string) (p : ParamSpec) : result string :=
  let cname := "c_" +:+ pname in
  t <- type_of types p;
  let inconv :=
    match INCONV t ≫= (.!! mode_str p) with
    | Some c => "  " +:+ c
    | None => EmptyString
    end in
  let inconv :=
    match deps d !! pname with
    | Some ds => subst_deps 0 ds inconv
    | None => inconv
    end in
  Ok (Str.replace "%I%" pname (Str.replace "%C%" cname inconv)).

Definition chunk_inconv (types : TypeTable) (d : FunctionDescriptor) : result string :=
  inconv <- for_each (λ np, inconv_par types d np.1 np.2) (params d);
  Ok (Str.join Str.nl (non_empty inconv)).

(** *** The call *)

(** One argument of the native call: the CALL template of the type, or
    the name with the prefix [c_], after the two replacements. *)
Definition call_arg (t : TypeDesc) (n : string) : string :=
  Str.replace "%I%" n (Str.replace "%C%" ("c_" +:+ n) (default ("c_" +:+ n) (CALL t))).

(** The test for a pending Java exception that opens the chunk. *)
Definition exception_check : string := "  if ((" +:+ "*env)->ExceptionCheck(env)) {".

Definition call_lines (function : string) (call : list string) : list string :=
  [ exception_check;
    "    c__result = IGRAPH_EINVAL;";
    "  } else {";
    "    c__result = " +:+ function +:+ "(" +:+ Str.join ", " call +:+ ");";
    "  }" ].

Definition chunk_call (types : TypeTable) (d : FunctionDescriptor) : result string :=
  ts <- for_each (λ np, type_of types np.2) (params d);
  let call := zip_with call_arg ts (params d).*1 in
  Ok (Str.join Str.nl (call_lines (fname d) call)).

(** *** The output conversions *)

Definition outconv_par (types : TypeTable) (pname : string) (p : ParamSpec)
    : result string :=
  let cname := "c_" +:+ pname in
  let jname := "j_" +:+ pname in
  t <- type_of types p;
  let outconv :=
    match OUTCONV t ≫= (.!! mode_str p) with
    | Some c => "  " +:+ c
    | None => EmptyString
    end in
  Ok (Str.replace "%I%" jname (Str.replace "%C%" cname outconv)).

Definition multiple_outputs (function : string) : exn :=
  StimulusError (function +:+ ": the case of multiple outputs not supported yet").

(** The assignment to [result] for the single output parameter [n]. *)
Definition result_assignment (n : string) (p : ParamSpec) : string :=
  if decide (mode p = OUT) then "  result = j_" +:+ n +:+ ";"
  else "  result = " +:+ n +:+ ";".

(** The lines of the chunk when there is one output parameter, from the
    converted parameters [outconv] and the assignment [retconv]. *)
Definition guarded (outconv : list string) (retconv : string) : list string :=
  map (λ line, "  " +:+ line)
    (("if (c__result == 0) {" :: (outconv ++ [retconv]))
     ++ ["} else {"; "  result = 0;"; "}"]).

Definition chunk_outconv (types : TypeTable) (d : FunctionDescriptor) : result string :=
  outconv <- for_each (λ np, outconv_par types np.1 np.2) (params d);
  let outconv := non_empty outconv in
  match retpars (params d) with
  | [] =>
      rt <- return_desc types d;
      retconv <- match OUTCONV rt with
                 | Some m => c <- subscript m "OUT"; Ok ("  " +:+ c)
                 | None => Ok EmptyString
                 end;
      let retconv := Str.replace "%I%" "result" (Str.replace "%C%" "c__result" retconv) in
      let outconv :=
        if (0 <? String.length retconv)%nat then outconv ++ [retconv] else outconv in
      Ok (Str.join Str.nl outconv)
  | [(n, p)] => Ok (Str.join Str.nl (guarded outconv (result_assignment n p)))
  | _ => Raise (multiple_outputs (fname d))
  end.

(** *** The whole function *)

(** The dictionary [res]. *)
Record Chunks : Type := {
  func : string;
  header : string;
  decl : string;
  before : string;
  inconv : string;
  call : string;
  outconv : string;
  after : string;
}.

Definition assemble (types : TypeTable) (metadata : Metadata)
    (d : FunctionDescriptor) : result Chunks :=
  h <- chunk_header types d;
  dc <- chunk_declaration types metadata d;
  ic <- chunk_inconv types d;
  c <- chunk_call types d;
  oc <- chunk_outconv types d;
  Ok {| func := fname d; header := h; decl := dc; before := chunk_before;
        inconv := ic; call := c; outconv := oc; after := chunk_after |}.

Definition template (res : Chunks) : string :=
  Str.nl +:+
  Str.join Str.nl
    [ "/*-------------------------------------------/";
      "/ " +:+ Str.ljust 42 (func res) +:+ " /";
      "/-------------------------------------------*/";
      header res +:+ " {";
      "                                        /* Declarations */";
      decl res;
      EmptyString;
      before res;
      "                                        /* Convert input */";
      inconv res;
      "                                        /* Call igraph */";
      call res;
      "                                        /* Convert output */";
      outconv res;
      EmptyString;
      after res;
      EmptyString;
      "  return result;";
      "}" ] +:+ Str.nl.

Definition comment (msg : string) : string := "/* " +:+ msg +:+ " */" +:+ Str.nl.

(** The first parameter whose type is not in the type table. *)
Definition unknown_param (types : TypeTable) (ps : Params) : option (string * ParamSpec) :=
  List.find (λ np, bool_decide (types !! ptype np.2 = None)) ps.

(** [generate_function]: only [StimulusError] is caught; an unknown
    parameter type is logged and nothing is written. *)
Definition generate_function (types : TypeTable) (d : FunctionDescriptor)
    (k : Sink) : result Sink :=
  match get_function_metadata types d TP_CTYPE with
  | Raise (StimulusError msg) => Ok (write (comment msg) k)
  | Raise e => Raise e
  | Ok metadata =>
      match unknown_param types (params d) with
      | Some np =>
          Ok (log_error ("Unknown type " +:+ ptype np.2 +:+ " in " +:+ fname d) k)
      | None =>
          match assemble types metadata d with
          | Raise (StimulusError msg) => Ok (write (comment msg) k)
          | Raise e => Raise e
          | Ok res => Ok (write (template res) k)
          end
      end
  end.

(** Modelled from the spec: the loop that drives [generate_function] is
    inherited from [CodeGeneratorBase] in [generators/base.py], which is
    not part of the sources at hand.  It visits the functions in
    declaration order and hands each one to [generate_function], writing
    to one output stream. *)
Fixpoint generate (types : TypeTable) (fns : list FunctionDescriptor)
    (k : Sink) : result Sink :=
  match fns with
  | [] => Ok k
  | d :: rest => k' <- generate_function types d k; generate types rest k'
  end.

End JavaCCodeGenerator.

(** ** The registry of code generators *)

Module Registry.

(** The classes the registry refers to. *)
Inductive CodeGenerator : Type :=
| ListTypesCodeGenerator
| JavaCCodeGenerator
| JavaJavaCodeGenerator
| RCCodeGenerator
| RInitCodeGenerator
| RRCodeGenerator
| ShellCodeGenerator.

(** The two module-level variables. *)
Record State : Type := {
_registry : gmap string CodeGenerator;
_registry_initialized : bool;
}.

(** The state when the module has just been loaded. *)
Definition initial : State :=
{| _registry := ∅; _registry_initialized := false |}.

(** The dictionary [updates], in the order it is written. *)
Definition languages : list (string * CodeGenerator) :=
[ ("debug:list-types", ListTypesCodeGenerator);
  ("java:c", JavaCCodeGenerator);
  ("java:java", JavaJavaCodeGenerator);
  ("r:c", RCCodeGenerator);
  ("r:init", RInitCodeGenerator);
  ("r:r", RRCodeGenerator);
  ("shell", ShellCodeGenerator);
  ("RC", RCCodeGenerator);
  ("RInit", RInitCodeGenerator);
  ("RR", RRCodeGenerator);
  ("Shell", ShellCodeGenerator) ].

Definition updates : gmap string CodeGenerator := list_to_map languages.

(** [_registry.update(updates)]: the new entries win. *)
Definition _register_code_generators (st : State) : State :=
{| _registry := updates ∪ _registry st;
   _registry_initialized := _registry_initialized st |}.

(** The answer, or the exception, together with the state left behind. *)
Definition get_code_generator_factory_for_language (lang : string) (st : State)
  : result CodeGenerator * State :=
let st :=
  if _registry_initialized st then st
  else {| _registry := _registry (_register_code_generators st);
          _registry_initialized := true |} in
(subscript (_registry st) lang, st).

(** Only [KeyError] is caught. *)
Definition is_valid_language (lang : string) (st : State) : result bool * State :=
match get_code_generator_factory_for_language lang st with
| (Ok _, st') => (Ok true, st')
| (Raise KeyError, st') => (Ok false, st')
| (Raise e, st') => (Raise e, st')
end.

(** The state after the module has been loaded and the languages of
    [history] have been asked for, in that order, through either function
    (both leave the same state behind). *)
Definition after (history : list string) : State :=
foldl (λ st lang, (get_code_generator_factory_for_language lang st).2) initial history.

End Registry.

(** ** The specification's reading of receiver selection *)

Module Spec.

(** The first parameter of mode [m], in declaration order, whose type is
    the handle type. *)
Fixpoint first_handle (m : ParamMode) (ps : Params) : option string :=
match ps with
| [] => None
| (n, p) :: rest =>
    if bool_decide (mode p = m) && bool_decide (ptype p = "GRAPH") then Some n
    else first_handle m rest
end.

(** A parameter of mode [m] whose type is the handle type. *)
Definition is_handle (m : ParamMode) (np : string * ParamSpec) : Prop :=
mode np.2 = m ∧ ptype np.2 = "GRAPH".

(** The receiver: sought among the IN parameters first, and among the OUT
    parameters only when no IN parameter matches. *)
Definition receiver (ps : Params) : option string :=
match first_handle IN ps with
| Some n => Some n
| None => first_handle OUT ps
end.

(** The IN parameters, in declaration order, without the first one of the
    handle type. *)
Fixpoint foreign_params (ps : Params) : Params :=
match ps with
| [] => []
| (n, p) :: rest =>
    if bool_decide (mode p = IN) then
      if bool_decide (ptype p = "GRAPH") then filter (λ np, mode np.2 = IN) rest
      else (n, p) :: foreign_params rest
    else foreign_params rest
end.

(** A foreign parameter declaration: the representation of the type, a
    space, the name. *)
Definition declares (types : TypeTable) (tp : TypeParam) (arg : string)
  (np : string * ParamSpec) : Prop :=
∃ t r, types !! ptype np.2 = Some t ∧ repr tp t = Some r ∧ arg = r +:+ " " +:+ np.1.

(** The text that stands for one function in the declarations: its
    signature, or the comment that carries the error message. *)
Definition declaration (types : TypeTable) (d : FunctionDescriptor) : string :=
match JavaCodeGenerator.get_function_metadata types d TP_JAVATYPE with
| Ok md => JavaJavaCodeGenerator.signature md
| Raise (StimulusError msg) => JavaJavaCodeGenerator.comment msg
| Raise _ => EmptyString
end.

(** The template with every line that holds the marker replaced by
    [generated]. *)
Definition fill (generated : string) (lines : list string) : string :=
String.concat EmptyString
  (map (λ line, if Str.contains JavaJavaCodeGenerator.marker line then generated else line)
     lines).

(** A parameter whose type the type table knows. *)
Definition known (types : TypeTable) (np : string * ParamSpec) : Prop :=
is_Some (types !! ptype np.2).

(** One argument of the native call for a parameter: the CALL template of
    its type with %C% and %I% substituted when there is one, and otherwise
    the name with the prefix [c_]. *)
Definition call_argument (types : TypeTable) (arg : string) (np : string * ParamSpec) : Prop :=
∃ t, types !! ptype np.2 = Some t ∧
     match CALL t with
     | Some c => arg = Str.replace "%I%" np.1 (Str.replace "%C%" ("c_" +:+ np.1) c)
     | None => arg = Str.replace "%I%" np.1 (Str.replace "%C%" ("c_" +:+ np.1) ("c_" +:+ np.1))
               ∧ (Str.contains "%" np.1 = false → arg = "c_" +:+ np.1)
     end.

(** Text with no percent sign, hence with no placeholder. *)
Definition percent_free (s : string) : Prop := Str.contains "%" s = false.

(** The argument of the native call for a parameter with a name free of
    percent signs, in the three plain cases: no CALL template, a template
    with one %C% and one with one %I%, around text free of percent signs. *)
Definition call_argument_filled (types : TypeTable) (arg : string)
  (np : string * ParamSpec) : Prop :=
∀ t, types !! ptype np.2 = Some t → percent_free np.1 →
  (CALL t = None → arg = "c_" +:+ np.1) ∧
  (∀ pre post, percent_free pre → percent_free post →
     (CALL t = Some (pre +:+ "%C%" +:+ post) → arg = pre +:+ "c_" +:+ np.1 +:+ post) ∧
     (CALL t = Some (pre +:+ "%I%" +:+ post) → arg = pre +:+ np.1 +:+ post)).

(** The two alphabets of ASCII, letter under letter. *)
Definition small_letters : string := "abcdefghijklmnopqrstuvwxyz".
Definition capital_letters : string := "ABCDEFGHIJKLMNOPQRSTUVWXYZ".

(** The character of [to] at the place where [c] stands in [from], and [c]
    itself when it does not stand there. *)
Fixpoint translate (from to : string) (c : ascii) : ascii :=
match from, to with
| String x from', String y to' => if Ascii.eqb x c then y else translate from' to' c
| _, _ => c
end.

(** The upper-case form of an ASCII character, read off the alphabets: a
    small letter becomes the capital letter at the same place, and every
    other character is kept. *)
Definition upper_case (c : ascii) : ascii := translate small_letters capital_letters c.

End Spec.

(** ** Data the statements below are tried on *)

Module Examples.

(** A small type table: INTEGER and GRAPH, with their native and foreign
    type names and nothing else. *)
Definition t_integer : TypeDesc :=
{| CTYPE := Some "igraph_integer_t"; JAVATYPE := Some "long"; CDECL := None;
   JAVADECL := None; CALL := None; INCONV := None; OUTCONV := None |}.

Definition t_graph : TypeDesc :=
{| CTYPE := Some "igraph_t"; JAVATYPE := Some "Graph"; CDECL := None;
   JAVADECL := None; CALL := None; INCONV := None; OUTCONV := None |}.

Definition table : TypeTable := <["INTEGER" := t_integer]> (<["GRAPH" := t_graph]> ∅).

Definition param (n ty : string) (m : ParamMode) : string * ParamSpec :=
(n, {| ptype := ty; mode := m |}).

(** [igraph_vcount(graph)], which returns an INTEGER. *)
Definition igraph_vcount : FunctionDescriptor :=
{| fname := "igraph_vcount"; NAME_JAVA := None; return_type := Some "INTEGER";
   params := [param "graph" "GRAPH" IN]; deps := ∅ |}.

(** The three parameters of the receiver example. *)
Definition abc : Params :=
[param "a" "INTEGER" IN; param "b" "GRAPH" IN; param "c" "GRAPH" IN].

Definition igraph_abc : FunctionDescriptor :=
{| fname := "igraph_abc"; NAME_JAVA := None; return_type := Some "INTEGER";
   params := abc; deps := ∅ |}.

(** One OUT parameter and a return type as well. *)
Definition igraph_ecount_into : FunctionDescriptor :=
{| fname := "igraph_ecount_into"; NAME_JAVA := None; return_type := Some "GRAPH";
   params := [param "graph" "GRAPH" IN; param "res" "INTEGER" OUT]; deps := ∅ |}.

(** No parameter of the handle type: a static method. *)
Definition igraph_version : FunctionDescriptor :=
{| fname := "igraph_version"; NAME_JAVA := None; return_type := Some "INTEGER";
   params := [param "which" "INTEGER" IN]; deps := ∅ |}.

(** One INOUT parameter and no return type. *)
Definition igraph_add_into : FunctionDescriptor :=
{| fname := "igraph_add_into"; NAME_JAVA := None; return_type := None;
   params := [param "graph" "GRAPH" IN; param "res" "INTEGER" INOUT]; deps := ∅ |}.

(** The output conversion chunk of [igraph_add_into]. *)
Definition add_into_outconv : string :=
Str.join Str.nl
  [ "  if (c__result == 0) {";
    "    result = res;";
    "  } else {";
    "    result = 0;";
    "  }" ].

(** A type table that knows INTEGER only. *)
Definition integer_only : TypeTable := {[ "INTEGER" := t_integer ]}.

(** A type table where INTEGER has a native type name and no foreign one. *)
Definition native_only : TypeTable :=
<["INTEGER" := {| CTYPE := Some "igraph_integer_t"; JAVATYPE := None; CDECL := None;
                  JAVADECL := None; CALL := None; INCONV := None; OUTCONV := None |}]>
  (<["GRAPH" := t_graph]> ∅).

(** Two OUT parameters. *)
Definition igraph_two_outputs : FunctionDescriptor :=
{| fname := "igraph_two_outputs"; NAME_JAVA := None; return_type := Some "INTEGER";
   params := [param "graph" "GRAPH" IN; param "x" "INTEGER" OUT; param "y" "INTEGER" OUT];
   deps := ∅ |}.

(** One OUT parameter, and a return type that the type table does not
    know. *)
Definition igraph_count_errors : FunctionDescriptor :=
{| fname := "igraph_count_errors"; NAME_JAVA := None; return_type := Some "ERROR";
   params := [param "graph" "GRAPH" IN; param "res" "INTEGER" OUT]; deps := ∅ |}.

(** An empty sink. *)
Definition nothing : JavaCCodeGenerator.Sink :=
{| JavaCCodeGenerator.out := EmptyString; JavaCCodeGenerator.log := [] |}.

(** A template of three lines, the second of which holds the marker. *)
Definition template_lines : list string :=
[ "class Graph {" +:+ Str.nl; "    // %STIMULUS%" +:+ Str.nl; "}" +:+ Str.nl ].

Definition files : gmap string (list string) := {[ "Graph.java.in" := template_lines ]}.

End Examples.

(** ** Auxiliary notions for the properties of the generators *)

Module Wf.

(** The number of occurrences of the character [c] in [s]. *)
Fixpoint count (c : ascii) (s : string) : nat :=
match s with
| EmptyString => 0
| String x r => (if ascii_dec x c then 1 else 0) + count c r
end.

(** The representation the type table has for a type id, if any. *)
Definition repr_of (types : TypeTable) (tp : TypeParam) (ty : string) : option string :=
types !! ty ≫= repr tp.

(** The type id of the first parameter, in order, whose type has no
    representation. *)
Fixpoint first_unknown (types : TypeTable) (tp : TypeParam) (ps : Params) : option string :=
match ps with
| [] => None
| (_, p) :: rest =>
    match repr_of types tp (ptype p) with
    | None => Some (ptype p)
    | Some _ => first_unknown types tp rest
    end
end.

(** The declaration of a parameter in a Java signature: the representation
    of its type, a space, its name. *)
Definition declaration_of (types : TypeTable) (tp : TypeParam)
  (np : string * ParamSpec) : string :=
Str.join " " [default EmptyString (repr_of types tp (ptype np.2)); np.1].

(** The second parameter of the JNI function: the class for a static
    method, the receiver otherwise. *)
Definition jni_receiver (ps : Params) : string :=
match Spec.receiver ps with
| None => "jclass cls"
| Some s => "jobject " +:+ s
end.

(** The header of the JNI function for the metadata [md]. *)
Definition jni_header (md : Metadata) (ps : Params) : string :=
"JNIEXPORT " +:+ md_return_type md +:+ " JNICALL "
+:+ ("Java_net_sf_igraph_Graph_" +:+ md_name md)
+:+ "(" +:+ Str.join ", " ("JNIEnv *env" :: jni_receiver ps :: argument_types md) +:+ ")".

(** The return type of the function is declared and is in the type table,
    and its OUTCONV dictionary, when it has one, has the key OUT. *)
Definition return_type_usable (types : TypeTable) (d : FunctionDescriptor) : Prop :=
∃ r rt, return_type d = Some r ∧ types !! r = Some rt ∧
        ∀ m, OUTCONV rt = Some m → is_Some (m !! "OUT").

(** The type of the parameter has no input conversion for its mode. *)
Definition no_inconv (types : TypeTable) (np : string * ParamSpec) : Prop :=
∃ t, types !! ptype np.2 = Some t ∧ INCONV t ≫= (.!! mode_str np.2) = None.

(** The metadata of the function can be computed for the representation
    [tp]: the return type resolves to a type that has the representation,
    every IN parameter other than the receiver has it too, and the display
    name is not empty when there is no receiver. *)
Definition resolves (types : TypeTable) (d : FunctionDescriptor) (tp : TypeParam)
  (rtn : string) : Prop :=
JavaCodeGenerator.return_type_name d = Ok rtn ∧
first_unknown types tp (Spec.foreign_params (params d)) = None ∧
is_Some (repr_of types tp rtn) ∧
(Spec.receiver (params d) = None → JavaCodeGenerator.base_name d ≠ EmptyString).

End Wf.

(** ** More data the statements are tried on *)

Module Examples2.
Import Examples.

(** A native name of fewer than eight characters. *)
Definition vcount : FunctionDescriptor :=
{| fname := "vcount"; NAME_JAVA := None; return_type := Some "INTEGER";
   params := [param "graph" "GRAPH" IN]; deps := ∅ |}.

(** A native name that is the prefix alone, and no parameter. *)
Definition igraph_ : FunctionDescriptor :=
{| fname := "igraph_"; NAME_JAVA := None; return_type := Some "INTEGER";
   params := []; deps := ∅ |}.

(** Two IN parameters whose types [table] does not know. *)
Definition igraph_degree : FunctionDescriptor :=
{| fname := "igraph_degree"; NAME_JAVA := None; return_type := Some "INTEGER";
   params := [param "graph" "GRAPH" IN; param "vids" "VECTOR" IN; param "w" "MATRIX" IN];
   deps := ∅ |}.

(** INTEGER with an output conversion, VECTOR with an input conversion
    that has no placeholder. *)
Definition converting : TypeTable :=
<["INTEGER" := {| CTYPE := Some "igraph_integer_t"; JAVATYPE := Some "jlong";
                  CDECL := None; JAVADECL := None; CALL := None; INCONV := None;
                  OUTCONV := Some {[ "OUT" := "%I% = (jlong) %C%;" ]} |}]>
  (<["VECTOR" := {| CTYPE := Some "igraph_vector_t"; JAVATYPE := Some "jdoubleArray";
                    CDECL := None; JAVADECL := None; CALL := None;
                    INCONV := Some {[ "IN" := "Java_igraph_check(env);" ]};
                    OUTCONV := None |}]>
     (<["GRAPH" := t_graph]> ∅)).

(** GRAPH is passed to the native function by reference. *)
Definition referencing : TypeTable :=
<["INTEGER" := t_integer]>
  (<["GRAPH" := {| CTYPE := Some "igraph_t"; JAVATYPE := Some "Graph"; CDECL := None;
                   JAVADECL := None; CALL := Some "&%C%"; INCONV := None;
                   OUTCONV := None |}]> ∅).

(** One OUT parameter whose type [table] does not know, and a return type
    that it knows. *)
Definition igraph_neighbors : FunctionDescriptor :=
{| fname := "igraph_neighbors"; NAME_JAVA := None; return_type := Some "INTEGER";
   params := [param "graph" "GRAPH" IN; param "res" "VECTOR" OUT]; deps := ∅ |}.

(** A template with no marker. *)
Definition plain_lines : list string := [ "class Graph {" +:+ Str.nl; "}" +:+ Str.nl ].

Definition plain_files : gmap string (list string) := {[ "Graph.java" := plain_lines ]}.

End Examples2.

(** * Properties *)

Import JavaCodeGenerator.

(** ** The partition of the parameters by mode *)

Lemma by_mode_retpars (ps : Params) :
  length (by_mode OUT ps) + length (by_mode INOUT ps) = length (retpars ps).
Proof.
  unfold by_mode, retpars, is_output.
  induction ps as [|[n [ty m]] ps IH]; [done|].
  rewrite fmap_cons, !filter_cons; cbn [snd mode].
  destruct m; repeat case_decide; try done; cbn [length]; lia.
Qed.

Lemma retpars_single (ps : Params) n p :
  retpars ps = [(n, p)] →
  (mode p = OUT ∧ by_mode OUT ps = [p] ∧ by_mode INOUT ps = []) ∨
  (mode p = INOUT ∧ by_mode OUT ps = [] ∧ by_mode INOUT ps = [p]).
Proof.
  induction ps as [|[n' [ty m]] ps IH]; [done|].
  pose proof (by_mode_retpars ps) as Hlen.
  unfold by_mode, retpars, is_output in *.
  rewrite fmap_cons, !filter_cons; cbn [snd mode].
  destruct m; repeat case_decide; try done; intros Hr.
  - injection Hr as <- <- Hr. rewrite Hr in Hlen. cbn in Hlen.
    left. split; [done|].
    destruct (filter _ ps.*2), (filter _ ps.*2); cbn in Hlen; try lia. done.
  - injection Hr as <- <- Hr. rewrite Hr in Hlen. cbn in Hlen.
    right. split; [done|].
    destruct (filter _ ps.*2), (filter _ ps.*2); cbn in Hlen; try lia. done.
Qed.

Lemma retpars_none (ps : Params) :
  retpars ps = [] → by_mode OUT ps = [] ∧ by_mode INOUT ps = [].
Proof.
  intros H. pose proof (by_mode_retpars ps) as Hlen. rewrite H in Hlen.
  destruct (by_mode OUT ps), (by_mode INOUT ps); cbn in Hlen; try lia. done.
Qed.

Lemma return_type_name_single d n p :
  retpars (params d) = [(n, p)] → return_type_name d = Ok (ptype p).
Proof.
  intros H. unfold return_type_name.
  destruct (retpars_single _ _ _ H) as [(_&->&->)|(_&->&->)]; done.
Qed.

Lemma return_type_name_override d r :
  retpars (params d) = [] → return_type d = Some r → r ≠ EmptyString →
  return_type_name d = Ok r.
Proof.
  intros H Hr Hne. unfold return_type_name.
  destruct (retpars_none _ H) as [-> ->]. rewrite Hr.
  destruct r; done.
Qed.

Lemma return_type_name_unsupported d :
  (retpars (params d) = [] ∧ truthy (return_type d) = false) ∨
  2 ≤ length (retpars (params d)) →
  return_type_name d = Raise (unsupported_calling_convention (base_name d)).
Proof.
  intros H. unfold return_type_name.
  pose proof (by_mode_retpars (params d)) as Hlen.
  destruct H as [[H Ht]|H].
  - destruct (retpars_none _ H) as [-> ->]. rewrite Ht. done.
  - rewrite Hlen.
    destruct (Nat.eqb_spec (length (retpars (params d))) 1); [lia|].
    destruct (Nat.eqb_spec (length (retpars (params d))) 0); [lia|]. done.
Qed.

Lemma repr_lookup (types : TypeTable) tp k :
  repr tp (default no_desc (types !! k)) = types !! k ≫= repr tp.
Proof. destruct (types !! k); destruct tp; reflexivity. Qed.

Lemma metadata_inv types d tp md :
  get_function_metadata types d tp = Ok md →
  ∃ rtn self args t,
    return_type_name d = Ok rtn ∧
    input_loop types tp (base_name d) (params d) None [] = Ok (self, args) ∧
    types !! rtn = Some t ∧ repr tp t = Some (md_return_type md) ∧
    argument_types md = args ∧
    self_name md = (if self is Some _ then self else output_self (params d)) ∧
    is_static md = negb (bool_decide (is_Some (self_name md))) ∧
    (if is_static md
     then upper_first (base_name d) = Ok (md_name md) ∧ java_modifiers md = "public static"
     else md_name md = base_name d ∧ java_modifiers md = "public").
Proof.
  unfold get_function_metadata. intros H.
  destruct (return_type_name d) as [rtn|] eqn:Hr; cbn [bind] in H; [|discriminate H].
  destruct (input_loop _ _ _ _ _ _) as [[self args]|] eqn:Hl; cbn [bind] in H; [|discriminate H].
  rewrite repr_lookup in H.
  destruct (types !! rtn) as [t|] eqn:Ht; cbn [mbind option_bind] in H; [|discriminate H].
  destruct (repr tp t) as [rt|] eqn:Hrt; [|discriminate H].
  set (self' := if self is Some _ then self else output_self (params d)) in *.
  exists rtn, self, args, t.
  destruct (bool_decide (is_Some self')) eqn:Hs; cbn [bind] in H.
  - injection H as <-. cbn. rewrite Hs. done.
  - destruct (upper_first (base_name d)) as [nm|] eqn:Hu; cbn [bind] in H; [|discriminate H].
    injection H as <-. cbn. rewrite Hs. done.
Qed.

Lemma output_self_first_handle ps : output_self ps = Spec.first_handle OUT ps.
Proof. induction ps as [|[n p] ps IH]; [done|]. cbn. by rewrite IH. Qed.

Lemma input_loop_skip types tp name ps s args self' args' :
  input_loop types tp name ps (Some s) args = Ok (self', args') →
  self' = Some s ∧
  ∃ new, args' = args ++ new ∧
         Forall2 (Spec.declares types tp) new (filter (λ np, mode np.2 = IN) ps).
Proof.
  revert args. induction ps as [|[n p] ps IH]; intros args H; cbn in H.
  - injection H as <- <-. split; [done|]. exists []. by rewrite app_nil_r.
  - rewrite filter_cons. cbn [snd]. destruct (decide (mode p = IN)) as [Hm|Hm].
    + rewrite repr_lookup in H.
      destruct (types !! ptype p) as [t|] eqn:Ht; cbn [mbind option_bind] in H; [|discriminate H].
      destruct (repr tp t) as [r|] eqn:Hr; [|discriminate H].
      destruct (IH _ H) as (-> & new & -> & Hnew). split; [done|].
      exists (Str.join " " [r; n] :: new). split; [by rewrite <- app_assoc|].
      constructor; [|done]. exists t, r. done.
    + by apply IH.
Qed.

Lemma input_loop_spec types tp name ps args self' args' :
  input_loop types tp name ps None args = Ok (self', args') →
  self' = Spec.first_handle IN ps ∧
  ∃ new, args' = args ++ new ∧
         Forall2 (Spec.declares types tp) new (Spec.foreign_params ps).
Proof.
  revert args. induction ps as [|[n p] ps IH]; intros args H; cbn in H.
  - injection H as <- <-. split; [done|]. exists []. by rewrite app_nil_r.
  - cbn [Spec.first_handle Spec.foreign_params].
    destruct (decide (mode p = IN)) as [Hm|Hm].
    + rewrite (bool_decide_eq_true_2 _ Hm). cbn [andb].
      destruct (bool_decide (ptype p = "GRAPH")) eqn:Hg.
      * apply input_loop_skip in H as (-> & new & -> & Hnew). eauto.
      * rewrite repr_lookup in H.
        destruct (types !! ptype p) as [t|] eqn:Ht; cbn [mbind option_bind] in H; [|discriminate H].
        destruct (repr tp t) as [r|] eqn:Hr; [|discriminate H].
        destruct (IH _ H) as (-> & new & -> & Hnew). split; [done|].
        exists (Str.join " " [r; n] :: new). split; [by rewrite <- app_assoc|].
        constructor; [|done]. exists t, r. done.
    + rewrite (bool_decide_eq_false_2 _ Hm). cbn [andb]. by apply IH.
Qed.

Lemma metadata_receiver types d tp md :
  get_function_metadata types d tp = Ok md →
  self_name md = Spec.receiver (params d) ∧
  Forall2 (Spec.declares types tp) (argument_types md) (Spec.foreign_params (params d)).
Proof.
  intros H. apply metadata_inv in H as (rtn & self & args & t & _ & Hl & _ & _ & -> & -> & _).
  apply input_loop_spec in Hl as (-> & new & -> & Hnew).
  unfold Spec.receiver. rewrite output_self_first_handle. split; [|done].
  by destruct (Spec.first_handle IN (params d)).
Qed.

(** ** Text and names: the primitives on the inputs they are used on *)

Example camelcase_words : camelcase "get_eids_between" = "getEidsBetween".
Proof. reflexivity. Qed.

Example camelcase_lowers_the_rest : camelcase "a__bCd_" = "aBcd".
Proof. reflexivity. Qed.

Example base_name_drops_the_prefix : base_name Examples.igraph_ecount_into = "ecountInto".
Proof. reflexivity. Qed.

Example replace_every_occurrence :
  Str.replace "%C%" "c_x" "f(&%C%, %C%%C)" = "f(&c_x, c_x%C)".
Proof. reflexivity. Qed.

Example split_keeps_empty_parts : Str.split "_" "a__b_" = ("a", [EmptyString; "b"; EmptyString]).
Proof. reflexivity. Qed.

(** ** The first parameter of the handle type *)

(** [Spec.first_handle] finds nothing exactly when no parameter of that
    mode has the handle type, and otherwise returns the name of the one
    before which there is none. *)
Lemma first_handle_None m ps :
  Spec.first_handle m ps = None ↔ Forall (λ np, ¬ Spec.is_handle m np) ps.
Proof.
  induction ps as [|[n p] ps IH]; cbn [Spec.first_handle]; [done|].
  rewrite Forall_cons, <- IH. unfold Spec.is_handle; cbn [snd].
  destruct (bool_decide_reflect (mode p = m)), (bool_decide_reflect (ptype p = "GRAPH"));
    cbn [andb]; intuition congruence.
Qed.

Lemma first_handle_Some m ps n :
  Spec.first_handle m ps = Some n ↔
  ∃ pre p post, ps = pre ++ (n, p) :: post ∧ Spec.is_handle m (n, p) ∧
                Forall (λ np, ¬ Spec.is_handle m np) pre.
Proof.
  induction ps as [|[n' p'] ps IH]; cbn [Spec.first_handle].
  - split; [done|]. intros (pre & p & post & H & _). by destruct pre.
  - unfold Spec.is_handle in *; cbn [snd] in *.
    destruct (bool_decide_reflect (mode p' = m)) as [Hm|Hm],
             (bool_decide_reflect (ptype p' = "GRAPH")) as [Ht|Ht]; cbn [andb].
    1: { split.
         - intros [= ->]. exists [], p', ps. done.
         - intros (pre & p & post & H & _ & Hpre). destruct pre as [|x pre].
           + by injection H as -> _ _.
           + injection H as <- _. apply Forall_cons in Hpre as [Hx _]. cbn in Hx. tauto. }
    all: rewrite IH; split.
    all: try (intros (pre & p & post & -> & Hp & Hpre);
              exists ((n', p') :: pre), p, post; split; [done|]; split; [done|];
              constructor; [cbn; tauto|done]).
    all: intros (pre & p & post & H & Hp & Hpre); destruct pre as [|x pre];
      [injection H as -> -> _; cbn in Hp; tauto|].
    all: injection H as <- ->; apply Forall_cons in Hpre as [_ Hpre]; eauto 6.
Qed.

(** ** Return type, receiver and static classification *)

(** C1.  The name of the return type is decided by the output parameters:
    with exactly one parameter of mode OUT or INOUT it is the type of that
    parameter; with none and a return type declared (a non-empty type id)
    it is the declared one; in every other case, that is with none and
    nothing declared or with two or more, the resolution raises the
    "calling convention unsupported" error, whatever the type table and the
    other fields are.  When the metadata is returned its return type is the
    representation the type table gives for that type name. *)
Theorem return_type_resolution (d : FunctionDescriptor) :
  (∀ n p, retpars (params d) = [(n, p)] → return_type_name d = Ok (ptype p)) ∧
  (∀ r, retpars (params d) = [] → return_type d = Some r → r ≠ EmptyString →
        return_type_name d = Ok r) ∧
  ((retpars (params d) = [] ∧ truthy (return_type d) = false) ∨
   2 ≤ length (retpars (params d)) →
     return_type_name d = Raise (unsupported_calling_convention (base_name d)) ∧
     ∀ types tp,
       get_function_metadata types d tp
       = Raise (unsupported_calling_convention (base_name d))) ∧
  (∀ types tp md,
     get_function_metadata types d tp = Ok md →
     ∃ rtn t, return_type_name d = Ok rtn ∧ types !! rtn = Some t ∧
              repr tp t = Some (md_return_type md)).
Proof.
  split; [|split; [|split]].
  - intros n p. apply return_type_name_single.
  - intros r. apply return_type_name_override.
  - intros H. pose proof (return_type_name_unsupported d H) as Hr.
    split; [done|]. intros types tp. unfold get_function_metadata. by rewrite Hr.
  - intros types tp md H.
    apply metadata_inv in H as (rtn & _ & _ & t & Hr & _ & Ht & Hrt & _). eauto.
Qed.

(** C2.  When the metadata is returned, the receiver is the first IN
    parameter of type GRAPH in declaration order, and only when there is
    none the first OUT parameter of type GRAPH; the argument list declares
    the IN parameters in order without that first IN parameter of type
    GRAPH.  For the parameters a (IN, INTEGER), b (IN, GRAPH), c (IN, GRAPH)
    the receiver is b. *)
Theorem receiver_selection (types : TypeTable) (d : FunctionDescriptor)
    (tp : TypeParam) (md : Metadata) :
  get_function_metadata types d tp = Ok md →
  self_name md = Spec.receiver (params d) ∧
  Forall2 (Spec.declares types tp) (argument_types md) (Spec.foreign_params (params d)) ∧
  (params d = Examples.abc → self_name md = Some "b").
Proof.
  intros H. destruct (metadata_receiver _ _ _ _ H) as [Hs Ha].
  split; [done|]. split; [done|]. intros Hp. by rewrite Hs, Hp.
Qed.

Lemma receiver_selection_witness :
  self_name
    {| md_name := "abc"; java_modifiers := "public"; md_return_type := "long";
       argument_types := ["long a"; "Graph c"]; self_name := Some "b";
       is_static := false; is_constructor := false |}
  = Some "b".
Proof.
  refine (proj2 (proj2 (receiver_selection Examples.table Examples.igraph_abc
                          TP_JAVATYPE _ _)) _).
  - vm_compute. reflexivity.
  - reflexivity.
Defined.

Lemma upper_char_table (c : ascii) : Str.upper_char c = Spec.upper_case c.
Proof. destruct c as [[] [] [] [] [] [] [] []]; vm_compute; reflexivity. Qed.

(** C7.  For a display name that is ASCII text: when the metadata is
    returned, the method is static exactly when no receiver was found; in
    that case the name is the base name with its first character in upper
    case and the modifiers are "public static", and otherwise the name is
    the base name itself and the only modifier is "public". *)
Theorem static_classification (types : TypeTable) (d : FunctionDescriptor)
    (tp : TypeParam) (md : Metadata) :
  Str.is_ascii (base_name d) = true →
  get_function_metadata types d tp = Ok md →
  (is_static md = true ↔ Spec.receiver (params d) = None) ∧
  (is_static md = true ↔ self_name md = None) ∧
  (is_static md = true →
     ∃ c r, base_name d = String c r ∧ md_name md = String (Spec.upper_case c) r ∧
            java_modifiers md = "public static") ∧
  (is_static md = false → md_name md = base_name d ∧ java_modifiers md = "public").
Proof.
  intros _ H. destruct (metadata_receiver _ _ _ _ H) as [Hs _].
  apply metadata_inv in H as (_ & _ & _ & _ & _ & _ & _ & _ & _ & _ & Hst & Hname).
  rewrite <- Hs.
  assert (is_static md = true ↔ self_name md = None) as Hiff.
  { rewrite Hst. destruct (self_name md); cbn; split; intros; done || discriminate. }
  split; [done|]. split; [done|]. split.
  - intros Ht. rewrite Ht in Hname. destruct Hname as [Hu Hm].
    unfold upper_first in Hu. destruct (base_name d) as [|c r]; [discriminate Hu|].
    injection Hu as <-. rewrite upper_char_table. eauto.
  - intros Hf. by rewrite Hf in Hname.
Qed.

Lemma static_classification_witness :
  ∃ md,
    get_function_metadata Examples.table Examples.igraph_version TP_JAVATYPE = Ok md ∧
    is_static md = true ∧ md_name md = "Version" ∧ java_modifiers md = "public static".
Proof.
  eexists. split; [vm_compute; reflexivity|].
  destruct (static_classification Examples.table Examples.igraph_version TP_JAVATYPE _
              eq_refl eq_refl) as (Hr & _ & Hn & _).
  pose proof (proj2 Hr eq_refl) as Hs. split; [exact Hs|].
  destruct (Hn Hs) as (c & r & Hb & Hm & Hj).
  vm_compute in Hb. injection Hb as <- <-. split; [exact Hm|exact Hj].
Defined.


(** ** Text *)

Lemma append_assoc (a b c : string) : (a +:+ b) +:+ c = a +:+ (b +:+ c).
Proof.
  induction a as [|x a IH]; [done|].
  change (String x ((a +:+ b) +:+ c) = String x (a +:+ (b +:+ c))). by f_equal.
Qed.

Lemma append_empty_r (a : string) : a +:+ EmptyString = a.
Proof.
  induction a as [|x a IH]; [done|].
  change (String x (a +:+ EmptyString) = String x a). by f_equal.
Qed.

(** ** The chunks of the JNI glue code *)

Import JavaCCodeGenerator.

Lemma contains_cons needle c s :
  Str.contains needle (String c s) = false →
  Str.starts_with needle (String c s) = false ∧ Str.contains needle s = false.
Proof. cbn [Str.contains]. intros H. by apply orb_false_elim in H. Qed.

Lemma replace_without_percent (old new s : string) :
  Str.contains "%" s = false →
  Str.replace (String "%"%char old) new s = s.
Proof.
  unfold Str.replace. induction s as [|c s IH]; [done|].
  intros H. apply contains_cons in H as [Hc Hs].
  cbn [Str.replace_from Str.starts_with] in *.
  destruct (ascii_dec "%" c); [discriminate Hc|]. by rewrite IH.
Qed.

Lemma c_name_without_percent (n : string) :
  Str.contains "%" n = false → Str.contains "%" ("c_" +:+ n) = false.
Proof.
  intros H. change ("c_" +:+ n) with (String "c"%char (String "_"%char n)).
  cbn [Str.contains Str.starts_with].
  destruct (ascii_dec "%" "c") as [E|_]; [discriminate E|].
  destruct (ascii_dec "%" "_") as [E|_]; [discriminate E|].
  by rewrite H.
Qed.

Lemma call_arg_plain (t : TypeDesc) (n : string) :
  CALL t = None → Str.contains "%" n = false → call_arg t n = "c_" +:+ n.
Proof.
  intros Hc Hn. unfold call_arg. rewrite Hc. cbn [default from_option id].
  pose proof (c_name_without_percent n Hn) as Hcn.
  rewrite (replace_without_percent "C%" _ _ Hcn).
  apply (replace_without_percent "I%" _ _ Hcn).
Qed.

Lemma for_each_known {A B} (f : A → result B) (l : list A) :
  Forall (λ x, ∃ y, f x = Ok y) l →
  ∃ ys, for_each f l = Ok ys ∧ Forall2 (λ x y, f x = Ok y) l ys.
Proof.
  induction 1 as [|x l [y Hy] _ (ys & IH & IH2)]; cbn [for_each].
  - by exists [].
  - rewrite Hy, IH. cbn [bind]. exists (y :: ys). split; [done|]. by constructor.
Qed.

Lemma percent_free_append (a b : string) :
  Spec.percent_free a → Spec.percent_free b → Spec.percent_free (a +:+ b).
Proof.
  unfold Spec.percent_free. intros Ha Hb. induction a as [|x a IH]; [done|].
  apply contains_cons in Ha as [Hx Ha].
  change (String x a +:+ b) with (String x (a +:+ b)).
  cbn [Str.contains Str.starts_with] in *.
  destruct (ascii_dec "%" x); [discriminate Hx|]. by apply IH.
Qed.

Lemma replace_after_plain (old new pre s : string) :
  Spec.percent_free pre →
  Str.replace (String "%"%char old) new (pre +:+ s)
  = pre +:+ Str.replace (String "%"%char old) new s.
Proof.
  unfold Spec.percent_free, Str.replace. induction pre as [|x pre IH]; [done|].
  intros [Hx Hp]%contains_cons.
  change (String x pre +:+ s) with (String x (pre +:+ s)).
  cbn [Str.replace_from Str.starts_with] in *.
  destruct (ascii_dec "%" x); [discriminate Hx|].
  change (String x pre +:+ ?t) with (String x (pre +:+ t)). by rewrite IH.
Qed.

Lemma replace_C_hit (new s : string) :
  Str.replace "%C%" new ("%C%" +:+ s) = new +:+ Str.replace "%C%" new s.
Proof. reflexivity. Qed.

Lemma replace_I_hit (new s : string) :
  Str.replace "%I%" new ("%I%" +:+ s) = new +:+ Str.replace "%I%" new s.
Proof. reflexivity. Qed.

Lemma starts_with_after_percent (o s : string) :
  Spec.percent_free s → Str.starts_with (o +:+ "%") s = false.
Proof.
  unfold Spec.percent_free. revert s. induction o as [|x o IH]; intros s Hs.
  - destruct s as [|y s]; [done|]. apply contains_cons in Hs as [Hy _].
    cbn [Str.starts_with] in Hy. change (EmptyString +:+ "%") with "%".
    cbn [Str.starts_with]. by destruct (ascii_dec "%" y).
  - destruct s as [|y s]; [done|]. apply contains_cons in Hs as [_ Hs].
    change (String x o +:+ "%") with (String x (o +:+ "%")). cbn [Str.starts_with].
    destruct (ascii_dec x y); [by apply IH|done].
Qed.

Lemma replace_C_skips_I (new post : string) :
  Spec.percent_free post →
  Str.replace "%C%" new ("%I%" +:+ post) = "%I%" +:+ post.
Proof.
  intros Hp. unfold Str.replace.
  change ("%I%" +:+ post) with (String "%"%char (String "I"%char (String "%"%char post))).
  cbn [Str.replace_from Str.starts_with].
  destruct (ascii_dec "%" "%") as [_|E]; [|by destruct E].
  destruct (ascii_dec "C" "I") as [E|_]; [discriminate E|].
  destruct (ascii_dec "%" "I") as [E|_]; [discriminate E|].
  pose proof (starts_with_after_percent "C" post Hp) as H.
  change ("C" +:+ "%") with "C%" in H. cbn [Str.starts_with] in H. rewrite H.
  do 3 f_equal. apply (replace_without_percent "C%" new post Hp).
Qed.

Lemma call_arg_filled (t : TypeDesc) (n : string) :
  Spec.percent_free n →
  (CALL t = None → call_arg t n = "c_" +:+ n) ∧
  (∀ pre post, Spec.percent_free pre → Spec.percent_free post →
     (CALL t = Some (pre +:+ "%C%" +:+ post) → call_arg t n = pre +:+ "c_" +:+ n +:+ post) ∧
     (CALL t = Some (pre +:+ "%I%" +:+ post) → call_arg t n = pre +:+ n +:+ post)).
Proof.
  intros Hn. pose proof (c_name_without_percent n Hn) as Hcn. split.
  - intros Hc. by apply call_arg_plain.
  - intros pre post Hpre Hpost. unfold call_arg. split; intros ->; cbn [default from_option id].
    + rewrite (replace_after_plain "C%" _ pre _ Hpre), replace_C_hit.
      rewrite (replace_without_percent "C%" _ post Hpost).
      apply (replace_without_percent "I%").
      apply percent_free_append; [done|]. apply (percent_free_append ("c_" +:+ n)); done.
    + rewrite (replace_after_plain "C%" _ pre _ Hpre), (replace_C_skips_I _ post Hpost).
      rewrite (replace_after_plain "I%" _ pre _ Hpre), replace_I_hit.
      by rewrite (replace_without_percent "I%" _ post Hpost).
Qed.

(** C5.  When the types of all parameters are in the type table, the call
    chunk is a test for a pending exception whose first branch assigns
    IGRAPH_EINVAL to [c__result] without calling the function, and whose
    other branch assigns to [c__result] the result of the function applied
    to one argument per parameter, in declaration order: the CALL template
    of the parameter's type with %C% and %I% substituted when the type has
    one (a %C% becomes the name with the prefix [c_], a %I% the name), and
    otherwise the name with the prefix [c_] (for a name with no percent
    sign, which the substitution leaves as it is). *)
Theorem call_chunk (types : TypeTable) (d : FunctionDescriptor) :
  Forall (Spec.known types) (params d) →
  ∃ args,
    chunk_call types d
    = Ok (Str.join Str.nl
            [ "  if ((*env)->ExceptionCheck(env)) {";
              "    c__result = IGRAPH_EINVAL;";
              "  } else {";
              "    c__result = " +:+ fname d +:+ "(" +:+ Str.join ", " args +:+ ");";
              "  }" ]) ∧
    Forall2 (Spec.call_argument types) args (params d) ∧
    Forall2 (Spec.call_argument_filled types) args (params d).
Proof.
  intros Hk. unfold chunk_call.
  destruct (for_each_known (λ np, type_of types np.2) (params d)) as (ts & -> & Hts).
  { eapply Forall_impl; [exact Hk|]. intros np [t Ht]. exists t.
    unfold type_of, subscript. by rewrite Ht. }
  cbn [bind]. eexists. split; [reflexivity|]. clear Hk.
  induction Hts as [|[n p] t ps ts Ht _ [IH1 IH2]]; cbn; [split; constructor|].
  unfold type_of, subscript in Ht. cbn [snd] in Ht.
  destruct (types !! ptype p) as [t'|] eqn:Hl; [|discriminate Ht]. injection Ht as ->.
  split; (constructor; [|done]).
  - exists t. split; [done|]. cbn [fst]. unfold call_arg.
    destruct (CALL t) as [c|] eqn:Hc; cbn [default from_option id]; [done|].
    split; [done|]. intros Hn.
    pose proof (c_name_without_percent n Hn) as Hcn.
    rewrite (replace_without_percent "C%" _ _ Hcn).
    apply (replace_without_percent "I%" _ _ Hcn).
  - intros t0 Ht0 Hn. cbn [fst snd] in *. rewrite Hl in Ht0. injection Ht0 as <-.
    by apply call_arg_filled.
Qed.

Lemma call_chunk_witness :
  ∃ args,
    chunk_call Examples2.referencing Examples.igraph_ecount_into
    = Ok (Str.join Str.nl
            [ "  if ((*env)->ExceptionCheck(env)) {";
              "    c__result = IGRAPH_EINVAL;";
              "  } else {";
              "    c__result = igraph_ecount_into(" +:+ Str.join ", " args +:+ ");";
              "  }" ]) ∧
    args = ["&c_graph"; "c_res"].
Proof.
  destruct (call_chunk Examples2.referencing Examples.igraph_ecount_into)
    as (args & Hc & _ & Ha).
  { repeat constructor; eexists; vm_compute; reflexivity. }
  exists args. split; [exact Hc|].
  apply Forall2_cons_inv_r in Ha as (a & args1 & Ha & Ha1 & ->).
  apply Forall2_cons_inv_r in Ha1 as (b & args2 & Hb & Ha2 & ->).
  apply Forall2_nil_inv_r in Ha2 as ->.
  destruct (Ha _ eq_refl eq_refl) as [_ Hg].
  destruct (Hg "&" EmptyString eq_refl eq_refl) as [HC _].
  destruct (Hb _ eq_refl eq_refl) as [Hn _].
  rewrite (HC eq_refl), (Hn eq_refl). reflexivity.
Defined.

(** C4.  For [igraph_vcount], with one IN parameter [graph] of type GRAPH
    and the return type INTEGER: the metadata is that of a method that is
    not static, with the receiver [graph] and the name [vcount], whose
    return type is the JAVATYPE of INTEGER; and when GRAPH has no CALL
    template the call chunk holds the text
    [c__result = igraph_vcount(c_graph);]. *)
Theorem igraph_vcount_end_to_end (types : TypeTable) (ti tg : TypeDesc) (jt : string) :
  types !! "INTEGER" = Some ti → JAVATYPE ti = Some jt →
  types !! "GRAPH" = Some tg → CALL tg = None →
  get_function_metadata types Examples.igraph_vcount TP_JAVATYPE
  = Ok {| md_name := "vcount"; java_modifiers := "public"; md_return_type := jt;
          argument_types := []; self_name := Some "graph";
          is_static := false; is_constructor := false |} ∧
  chunk_call types Examples.igraph_vcount
  = Ok (Str.join Str.nl
          [ exception_check;
            "    c__result = IGRAPH_EINVAL;";
            "  } else {";
            "    c__result = igraph_vcount(c_graph);";
            "  }" ]) ∧
  ∀ text, chunk_call types Examples.igraph_vcount = Ok text →
          Str.contains "c__result = igraph_vcount(c_graph);" text = true.
Proof.
  intros Hi Hj Hg Hc.
  assert (chunk_call types Examples.igraph_vcount
          = Ok (Str.join Str.nl (call_lines "igraph_vcount" ["c_graph"]))) as Hcall.
  { unfold chunk_call, Examples.igraph_vcount, Examples.param, params.
    cbn [for_each snd]. unfold type_of, subscript. cbn [ptype]. rewrite Hg. cbn [bind].
    cbn [fmap list_fmap zip_with fst fname].
    rewrite (call_arg_plain tg "graph" Hc eq_refl). reflexivity. }
  split; [|split].
  - unfold get_function_metadata.
    change (return_type_name Examples.igraph_vcount) with (Ok (A:=string) "INTEGER").
    change (base_name Examples.igraph_vcount) with "vcount".
    change (input_loop types TP_JAVATYPE "vcount" (params Examples.igraph_vcount) None [])
      with (Ok (A:=option string * list string) (Some "graph", [])).
    cbn [bind]. rewrite Hi. cbn [default from_option id repr]. rewrite Hj. reflexivity.
  - exact Hcall.
  - intros text Ht. rewrite Hcall in Ht. injection Ht as <-. vm_compute. reflexivity.
Qed.

Lemma igraph_vcount_end_to_end_witness :
  get_function_metadata Examples.table Examples.igraph_vcount TP_JAVATYPE
  = Ok {| md_name := "vcount"; java_modifiers := "public"; md_return_type := "long";
          argument_types := []; self_name := Some "graph";
          is_static := false; is_constructor := false |}.
Proof.
  exact (proj1 (igraph_vcount_end_to_end Examples.table Examples.t_integer
                  Examples.t_graph "long" eq_refl eq_refl eq_refl eq_refl)).
Defined.

(** C6, as amended.  With exactly one parameter of mode OUT or INOUT (and
    the types of all parameters in the type table) the output conversion
    chunk is a test that [c__result] is 0; its first branch holds the
    output conversions of the parameters and then assigns to [result] the
    variable with the prefix [j_] when the mode is OUT, and the variable
    named as the parameter itself, with no prefix, when the mode is INOUT;
    its other branch assigns 0 to [result]. *)
Theorem single_output_conversion (types : TypeTable) (d : FunctionDescriptor)
    (n : string) (p : ParamSpec) :
  retpars (params d) = [(n, p)] →
  Forall (Spec.known types) (params d) →
  ∃ convs,
    Forall2 (λ np c, outconv_par types np.1 np.2 = Ok c) (params d) convs ∧
    chunk_outconv types d
    = Ok (Str.join Str.nl
            ("  if (c__result == 0) {"
             :: map (λ c, "  " +:+ c) (non_empty convs)
             ++ [ if decide (mode p = OUT) then "    result = j_" +:+ n +:+ ";"
                  else "    result = " +:+ n +:+ ";";
                  "  } else {";
                  "    result = 0;";
                  "  }" ])).
Proof.
  intros Hp Hk. unfold chunk_outconv.
  destruct (for_each_known (λ np, outconv_par types np.1 np.2) (params d))
    as (convs & -> & Hconvs).
  { eapply Forall_impl; [exact Hk|]. intros np [t Ht].
    unfold outconv_par, type_of, subscript. rewrite Ht. cbn [bind]. eauto. }
  exists convs. split; [done|]. cbn [bind]. rewrite Hp. do 2 f_equal.
  unfold guarded, result_assignment.
  rewrite !map_app, !map_cons, map_app. cbn [map app].
  rewrite <- app_assoc. cbn [app].
  by destruct (decide (mode p = OUT)).
Qed.

Lemma single_output_conversion_witness :
  ∃ convs,
    Forall2 (λ np c, outconv_par Examples.table np.1 np.2 = Ok c)
      (params Examples.igraph_ecount_into) convs ∧
    chunk_outconv Examples.table Examples.igraph_ecount_into
    = Ok (Str.join Str.nl
            ("  if (c__result == 0) {"
             :: map (λ c, "  " +:+ c) (non_empty convs)
             ++ [ "    result = j_res;"; "  } else {"; "    result = 0;"; "  }" ])).
Proof.
  apply (single_output_conversion Examples.table Examples.igraph_ecount_into
           "res" {| ptype := "INTEGER"; mode := OUT |}).
  - reflexivity.
  - repeat constructor; eexists; vm_compute; reflexivity.
Defined.

(** C6, as stated, fails: for the INOUT parameter [res] the chunk assigns
    [res] to [result], and the native variable [c_res] does not occur in
    it. *)
Lemma inout_result_is_the_bare_parameter_name :
  chunk_outconv Examples.table Examples.igraph_add_into = Ok Examples.add_into_outconv ∧
  Str.contains "result = res;" Examples.add_into_outconv = true ∧
  Str.contains "c_res" Examples.add_into_outconv = false.
Proof. vm_compute. done. Qed.


(** ** Failures of one function in a batch *)

Lemma generate_app types pre post k :
  generate types (pre ++ post) k = (k1 <- generate types pre k; generate types post k1).
Proof.
  revert k. induction pre as [|d pre IH]; intros k; [done|].
  cbn [app generate]. destruct (generate_function types d k); [|done]. cbn [bind]. apply IH.
Qed.


(** ** The generator of declarations *)

Lemma return_type_name_no_crash d :
  (∃ r, return_type_name d = Ok r) ∨ ∃ msg, return_type_name d = Raise (StimulusError msg).
Proof.
  unfold return_type_name.
  destruct (by_mode OUT (params d)) as [|o outs]; destruct (by_mode INOUT (params d)) as [|i inouts];
    cbn [length head_type]; repeat case_match; eauto.
  all: cbn in *; try discriminate; try lia.
Qed.

Lemma input_loop_no_crash types tp name ps self args :
  (∃ r, input_loop types tp name ps self args = Ok r) ∨
  ∃ msg, input_loop types tp name ps self args = Raise (StimulusError msg).
Proof.
  revert self args. induction ps as [|[n p] ps IH]; intros self args; cbn [input_loop]; [eauto|].
  repeat case_match; eauto.
Qed.

Lemma metadata_no_crash types d tp :
  base_name d ≠ EmptyString →
  (∃ md, get_function_metadata types d tp = Ok md) ∨
  ∃ msg, get_function_metadata types d tp = Raise (StimulusError msg).
Proof.
  intros Hn. unfold get_function_metadata.
  destruct (return_type_name_no_crash d) as [[r ->]|[msg ->]]; cbn [bind]; [|eauto].
  destruct (input_loop_no_crash types tp (base_name d) (params d) None [])
    as [[[self args] ->]|[msg ->]]; cbn [bind]; [|eauto].
  destruct (repr tp _); [|eauto].
  destruct (bool_decide _); cbn [bind]; [eauto|].
  unfold upper_first. destruct (base_name d); [done|]. cbn [bind]. eauto.
Qed.


Lemma generate_function_declaration types d out :
  base_name d ≠ EmptyString →
  JavaJavaCodeGenerator.generate_function types d out = Ok (out +:+ Spec.declaration types d).
Proof.
  intros Hn. unfold JavaJavaCodeGenerator.generate_function, Spec.declaration.
  by destruct (metadata_no_crash types d TP_JAVATYPE Hn) as [[md ->]|[msg ->]].
Qed.

Lemma generate_functions_declarations types fns out :
  Forall (λ d, base_name d ≠ EmptyString) fns →
  JavaJavaCodeGenerator.generate_functions types fns out
  = Ok (out +:+ String.concat EmptyString (map (Spec.declaration types) fns)).
Proof.
  intros H. revert out. induction H as [|d fns Hd _ IH]; intros out; cbn [JavaJavaCodeGenerator.generate_functions map].
  - cbn. by rewrite append_empty_r.
  - rewrite (generate_function_declaration _ _ _ Hd). cbn [bind]. rewrite IH.
    rewrite append_assoc. do 2 f_equal.
    destruct fns; cbn [map String.concat]; [by rewrite append_empty_r|done].
Qed.

Lemma concat_cons (x : string) (l : list string) :
  String.concat EmptyString (x :: l) = x +:+ String.concat EmptyString l.
Proof. destruct l; cbn [String.concat]; [by rewrite append_empty_r|done]. Qed.

Lemma generate_lines_fill types fns lines out :
  Forall (λ d, base_name d ≠ EmptyString) fns →
  JavaJavaCodeGenerator.generate_lines types fns lines out
  = Ok (out +:+ Spec.fill (String.concat EmptyString (map (Spec.declaration types) fns)) lines).
Proof.
  intros H. revert out. unfold Spec.fill.
  induction lines as [|line lines IH]; intros out; cbn [JavaJavaCodeGenerator.generate_lines map].
  - cbn. by rewrite append_empty_r.
  - rewrite concat_cons, <- append_assoc.
    destruct (Str.contains JavaJavaCodeGenerator.marker line).
    + rewrite (generate_functions_declarations _ _ _ H). cbn [bind]. apply IH.
    + cbn [bind]. apply IH.
Qed.

(** C9.  The generator of declarations rejects more than one input with
    an error.  With one input, every line without the marker %STIMULUS% is
    written as it is, and every line with the marker is replaced by the
    declarations of all functions in declaration order: for each function
    its one-line signature, or a comment with the error message.  (No
    function has an empty display name: taking the first character of an
    empty name is an error that is not caught.) *)
Theorem template_mode (types : TypeTable) (fns : list FunctionDescriptor)
    (fs : gmap string (list string)) :
  Forall (λ d, base_name d ≠ EmptyString) fns →
  (∀ inputs out, 1 < length inputs → JavaJavaCodeGenerator.generate types fns fs inputs out = Raise JavaJavaCodeGenerator.single_input_only) ∧
  (∀ out, JavaJavaCodeGenerator.generate types fns fs [] out = Raise IndexError) ∧
  (∀ path lines out,
     fs !! path = Some lines →
     JavaJavaCodeGenerator.generate types fns fs [path] out
     = Ok (out +:+ Spec.fill (String.concat EmptyString (map (Spec.declaration types) fns))
                     lines)).
Proof.
  intros H. split; [|split; [done|]].
  - intros inputs out Hl. unfold JavaJavaCodeGenerator.generate.
    destruct (Nat.ltb_spec 1 (length inputs)); [done|lia].
  - intros path lines out Hp. unfold JavaJavaCodeGenerator.generate. cbn [length]. rewrite Hp.
    by apply generate_lines_fill.
Qed.


Lemma template_mode_witness :
  JavaJavaCodeGenerator.generate Examples.table [Examples.igraph_two_outputs; Examples.igraph_vcount]
    Examples.files ["Graph.java.in"] EmptyString
  = Ok ("class Graph {" +:+ Str.nl
        +:+ "    // twoOutputs: calling convention unsupported yet" +:+ Str.nl
        +:+ "    public native long vcount();" +:+ Str.nl
        +:+ "}" +:+ Str.nl).
Proof.
  refine (proj2 (proj2 (template_mode Examples.table
                          [Examples.igraph_two_outputs; Examples.igraph_vcount]
                          Examples.files _))
            "Graph.java.in" Examples.template_lines EmptyString eq_refl).
  repeat constructor; vm_compute; discriminate.
Defined.

(** ** The registry *)

Import Registry.

Lemma after_states (history : list string) :
  after history = initial ∨
  after history = {| _registry := updates; _registry_initialized := true |}.
Proof.
  unfold after. induction history as [|lang history IH] using rev_ind; [by left|].
  rewrite foldl_app. cbn [foldl]. right.
  destruct IH as [-> | ->]; reflexivity.
Qed.

Lemma registry_after (history : list string) (lang : string) :
  (get_code_generator_factory_for_language lang (after history)).1 = subscript updates lang.
Proof.
  destruct (after_states history) as [-> | ->]; reflexivity.
Qed.

Lemma updates_lookup (lang : string) :
  is_Some (updates !! lang) ↔ lang ∈ languages.*1.
Proof.
  unfold updates. split.
  - intros [g Hg]. apply elem_of_list_to_map_2 in Hg.
    apply list_elem_of_fmap. by exists (lang, g).
  - intros H. destruct (list_to_map languages !! lang) eqn:E; [eauto|].
    by apply not_elem_of_list_to_map in E.
Qed.

(** C10.  Whatever languages have been asked for before, [is_valid_language]
    returns true exactly for the registered language codes and false,
    without raising, for every other string, for which
    [get_code_generator_factory_for_language] raises [KeyError]. *)
Theorem is_valid_language_registered (history : list string) (lang : string) :
  let codes := [ "debug:list-types"; "java:c"; "java:java"; "r:c"; "r:init"; "r:r";
                 "shell"; "RC"; "RInit"; "RR"; "Shell" ] in
  ((is_valid_language lang (after history)).1 = Ok true ↔ lang ∈ codes) ∧
  ((is_valid_language lang (after history)).1 = Ok false ↔ lang ∉ codes) ∧
  (lang ∉ codes →
     (get_code_generator_factory_for_language lang (after history)).1 = Raise KeyError).
Proof.
  intros codes. change codes with languages.*1. clear codes.
  pose proof (registry_after history lang) as Hr.
  pose proof (updates_lookup lang) as Hl.
  unfold is_valid_language.
  destruct (get_code_generator_factory_for_language lang (after history)) as [r st].
  cbn [fst] in *. subst r. unfold subscript in *.
  destruct (updates !! lang) as [g|]; cbn [fst].
  - assert (lang ∈ languages.*1) as Hin by (apply Hl; eauto).
    split; [done|]. split; [split; [discriminate|done]|done].
  - assert (lang ∉ languages.*1) as Hout by (intros [? ?]%Hl; discriminate).
    split; [split; [discriminate|done]|]. done.
Qed.


(** * Further properties of the generators and of the registry *)

(** ** [camelcase] *)

Lemma upper_char_underscore x : Str.upper_char x = "_"%char → x = "_"%char.
Proof. destruct x as [[] [] [] [] [] [] [] []]; vm_compute; intros H; first [reflexivity | discriminate H]. Qed.

Lemma lower_char_underscore x : Str.lower_char x = "_"%char → x = "_"%char.
Proof. destruct x as [[] [] [] [] [] [] [] []]; vm_compute; intros H; first [reflexivity | discriminate H]. Qed.

Lemma count_append c a b : Wf.count c (a +:+ b) = Wf.count c a + Wf.count c b.
Proof.
  induction a as [|x a IH]; [done|].
  change (String x a +:+ b) with (String x (a +:+ b)). cbn [Wf.count]. rewrite IH. lia.
Qed.

Lemma length_append a b : String.length (a +:+ b) = String.length a + String.length b.
Proof.
  induction a as [|x a IH]; [done|].
  change (String x a +:+ b) with (String x (a +:+ b)). cbn [String.length]. by rewrite IH.
Qed.

Lemma count_lower s : Wf.count "_" s = 0 → Wf.count "_" (Str.lower s) = 0.
Proof.
  induction s as [|x s IH]; [done|]. cbn [Str.lower Wf.count].
  destruct (ascii_dec x "_") as [|Hx]; [lia|]. intros H.
  destruct (ascii_dec (Str.lower_char x) "_") as [E|_]; [by apply lower_char_underscore in E|].
  by apply IH.
Qed.

Lemma count_capitalize s : Wf.count "_" s = 0 → Wf.count "_" (Str.capitalize s) = 0.
Proof.
  destruct s as [|x s]; [done|]. cbn [Str.capitalize Wf.count].
  destruct (ascii_dec x "_") as [|Hx]; [lia|]. intros H.
  destruct (ascii_dec (Str.upper_char x) "_") as [E|_]; [by apply upper_char_underscore in E|].
  by apply count_lower.
Qed.

Lemma length_lower s : String.length (Str.lower s) = String.length s.
Proof. induction s as [|x s IH]; [done|]. cbn. by rewrite IH. Qed.

Lemma length_capitalize s : String.length (Str.capitalize s) = String.length s.
Proof. destruct s as [|x s]; [done|]. cbn. by rewrite length_lower. Qed.

Lemma split_parts s :
  Wf.count "_" (Str.split "_" s).1 = 0 ∧
  Forall (λ p, Wf.count "_" p = 0) (Str.split "_" s).2 ∧
  String.length (Str.split "_" s).1
  + String.length (String.concat EmptyString (Str.split "_" s).2)
  + Wf.count "_" s = String.length s.
Proof.
  induction s as [|x s (IH1 & IH2 & IH3)]; [by repeat split|].
  cbn [Str.split Wf.count]. destruct (Str.split "_" s) as [h t]. cbn [fst snd] in *.
  destruct (ascii_dec x "_") as [->|Hx]; cbn [fst snd Wf.count String.length].
  - rewrite concat_cons, length_append. repeat split; [by constructor|lia].
  - destruct (ascii_dec x "_"); [done|]. repeat split; [done|done|lia].
Qed.

Lemma split_without_underscore s :
  Wf.count "_" s = 0 → Str.split "_" s = (s, []).
Proof.
  induction s as [|x s IH]; [done|]. cbn [Str.split Wf.count].
  destruct (ascii_dec x "_"); [lia|]. intros H. by rewrite IH.
Qed.

Lemma capitalized_parts (t : list string) :
  String.length (String.concat EmptyString (map Str.capitalize t))
  = String.length (String.concat EmptyString t) ∧
  (Forall (λ p, Wf.count "_" p = 0) t →
   Wf.count "_" (String.concat EmptyString (map Str.capitalize t)) = 0).
Proof.
  induction t as [|p t [IH1 IH2]]; [done|]. cbn [map].
  rewrite !concat_cons, !length_append, count_append, length_capitalize, IH1.
  split; [done|]. intros [Hp Ht]%Forall_cons. by rewrite (count_capitalize _ Hp), IH2.
Qed.

(** X1.  On ASCII text [camelcase] leaves no underscore in its result,
    shortens the string by exactly the number of underscores it had, and
    returns a string that has none unchanged. *)
Theorem camelcase_removes_underscores (s : string) :
  Str.is_ascii s = true →
  Wf.count "_" (camelcase s) = 0 ∧
  String.length (camelcase s) + Wf.count "_" s = String.length s ∧
  (Wf.count "_" s = 0 → camelcase s = s).
Proof.
  intros _. split; [|split]; [| |intros Hs; unfold camelcase; by rewrite (split_without_underscore s Hs)].
  all: unfold camelcase, Str.join.
  all: destruct (split_parts s) as (H1 & H2 & H3).
  all: destruct (Str.split "_" s) as [h t]; cbn [fst snd] in *.
  all: destruct (capitalized_parts t) as [Hl Hc].
  all: rewrite concat_cons.
  - by rewrite count_append, H1, (Hc H2).
  - rewrite length_append, Hl. lia.
Qed.

Lemma camelcase_removes_underscores_witness :
  Wf.count "_" (camelcase "get_eids_between") = 0 ∧
  String.length (camelcase "get_eids_between") + Wf.count "_" "get_eids_between"
  = String.length "get_eids_between" ∧
  (Wf.count "_" "get_eids_between" = 0 → camelcase "get_eids_between" = "get_eids_between").
Proof. apply camelcase_removes_underscores. reflexivity. Defined.

(** ** The resolver as a function of the parameters *)

Lemma repr_of_lookup (types : TypeTable) tp ty :
  repr tp (default no_desc (types !! ty)) = Wf.repr_of types tp ty.
Proof. apply repr_lookup. Qed.

Lemma declaration_of_repr types tp n p r :
  Wf.repr_of types tp (ptype p) = Some r →
  Wf.declaration_of types tp (n, p) = Str.join " " [r; n].
Proof. unfold Wf.declaration_of. cbn [fst snd]. by intros ->. Qed.

Lemma input_loop_skip_eq types tp name ps s args :
  input_loop types tp name ps (Some s) args
  = match Wf.first_unknown types tp (filter (λ np, mode np.2 = IN) ps) with
    | Some ty => Raise (unknown_input_type name ty tp)
    | None => Ok (Some s, args ++ map (Wf.declaration_of types tp)
                                    (filter (λ np, mode np.2 = IN) ps))
    end.
Proof.
  revert args. induction ps as [|[n p] ps IH]; intros args; cbn [input_loop].
  - by rewrite app_nil_r.
  - rewrite filter_cons. cbn [snd]. destruct (decide (mode p = IN)) as [Hm|Hm]; [|apply IH].
    rewrite (bool_decide_eq_false_2 (Some s = None)) by done.
    cbn [andb Wf.first_unknown map]. rewrite repr_of_lookup.
    destruct (Wf.repr_of types tp (ptype p)) as [r|] eqn:Hr; [|reflexivity].
    rewrite IH. destruct (Wf.first_unknown _ _ _); [done|].
    by rewrite (declaration_of_repr _ _ _ _ _ Hr), <- app_assoc.
Qed.

Lemma input_loop_eq types tp name ps args :
  input_loop types tp name ps None args
  = match Wf.first_unknown types tp (Spec.foreign_params ps) with
    | Some ty => Raise (unknown_input_type name ty tp)
    | None => Ok (Spec.first_handle IN ps,
                  args ++ map (Wf.declaration_of types tp) (Spec.foreign_params ps))
    end.
Proof.
  revert args. induction ps as [|[n p] ps IH]; intros args;
    cbn [input_loop Spec.foreign_params Spec.first_handle].
  - by rewrite app_nil_r.
  - destruct (decide (mode p = IN)) as [Hm|Hm].
    + rewrite (bool_decide_eq_true_2 _ Hm). cbn [andb].
      destruct (bool_decide (ptype p = "GRAPH")) eqn:Hg.
      * apply input_loop_skip_eq.
      * cbn [Wf.first_unknown map]. rewrite repr_of_lookup.
        destruct (Wf.repr_of types tp (ptype p)) as [r|] eqn:Hr; [|reflexivity].
        rewrite IH. destruct (Wf.first_unknown _ _ _); [done|].
        by rewrite (declaration_of_repr _ _ _ _ _ Hr), <- app_assoc.
    + rewrite (bool_decide_eq_false_2 _ Hm). cbn [andb]. apply IH.
Qed.

(** The whole resolver, in terms of the parameters *)
Lemma get_function_metadata_eq types d tp :
  get_function_metadata types d tp
  = (rtn <- return_type_name d;
     match Wf.first_unknown types tp (Spec.foreign_params (params d)) with
     | Some ty => Raise (unknown_input_type (base_name d) ty tp)
     | None =>
         match Wf.repr_of types tp rtn with
         | None => Raise (unknown_return_type (base_name d) rtn)
         | Some rt =>
             name <- (if Spec.receiver (params d) is Some _ then Ok (base_name d)
                      else upper_first (base_name d));
             Ok {| md_name := name;
                   java_modifiers :=
                     if Spec.receiver (params d) is Some _ then "public" else "public static";
                   md_return_type := rt;
                   argument_types :=
                     map (Wf.declaration_of types tp) (Spec.foreign_params (params d));
                   self_name := Spec.receiver (params d);
                   is_static := if Spec.receiver (params d) is Some _ then false else true;
                   is_constructor := false |}
         end
     end).
Proof.
  unfold get_function_metadata.
  destruct (return_type_name d) as [rtn|]; cbn [bind]; [|done].
  rewrite input_loop_eq.
  destruct (Wf.first_unknown _ _ _); cbn [bind]; [done|].
  rewrite repr_of_lookup. destruct (Wf.repr_of types tp rtn); [|done].
  unfold Spec.receiver. rewrite output_self_first_handle.
  destruct (Spec.first_handle IN (params d)) as [s1|]; cbn [bind]; [done|].
  destruct (Spec.first_handle OUT (params d)) as [s2|]; cbn [bind]; [done|].
  by destruct (upper_first (base_name d)).
Qed.

(** X3.  When the return type resolves, and some IN parameter other than
    the receiver has a type with no representation, the resolver raises the
    "unknown input type" error for the first such parameter in declaration
    order, whatever the return type is. *)
Theorem unknown_input_type_names_first_offender (types : TypeTable)
    (d : FunctionDescriptor) (tp : TypeParam) (rtn ty : string) :
  return_type_name d = Ok rtn →
  Wf.first_unknown types tp (Spec.foreign_params (params d)) = Some ty →
  get_function_metadata types d tp = Raise (unknown_input_type (base_name d) ty tp).
Proof. intros Hr Hu. by rewrite get_function_metadata_eq, Hr, Hu. Qed.

Lemma unknown_input_type_names_first_offender_witness :
  get_function_metadata Examples.table Examples2.igraph_degree TP_JAVATYPE
  = Raise (StimulusError "degree: unknown input type VECTOR (needs JAVATYPE), skipping").
Proof.
  exact (unknown_input_type_names_first_offender Examples.table Examples2.igraph_degree
           TP_JAVATYPE "INTEGER" "VECTOR" eq_refl eq_refl).
Defined.

(** X4.  The "unknown return type" error is raised when the return type
    resolves, every IN parameter other than the receiver has a
    representation, and the resolved return type has none. *)
Theorem unknown_return_type_after_inputs (types : TypeTable)
    (d : FunctionDescriptor) (tp : TypeParam) (rtn : string) :
  return_type_name d = Ok rtn →
  Wf.first_unknown types tp (Spec.foreign_params (params d)) = None →
  Wf.repr_of types tp rtn = None →
  get_function_metadata types d tp = Raise (unknown_return_type (base_name d) rtn).
Proof. intros Hr Hu Hn. by rewrite get_function_metadata_eq, Hr, Hu; cbn [bind]; rewrite Hn. Qed.

Lemma unknown_return_type_after_inputs_witness :
  get_function_metadata Examples.native_only Examples.igraph_vcount TP_JAVATYPE
  = Raise (StimulusError "vcount: unknown return type INTEGER, skipping").
Proof.
  exact (unknown_return_type_after_inputs Examples.native_only Examples.igraph_vcount
           TP_JAVATYPE "INTEGER" eq_refl eq_refl eq_refl).
Defined.

Lemma metadata_succeeds_iff_aux (types : TypeTable) (d : FunctionDescriptor) (tp : TypeParam) :
  (∃ md, get_function_metadata types d tp = Ok md) ↔
  (∃ rtn, return_type_name d = Ok rtn ∧ is_Some (Wf.repr_of types tp rtn)) ∧
  Wf.first_unknown types tp (Spec.foreign_params (params d)) = None ∧
  (Spec.receiver (params d) = None → base_name d ≠ EmptyString).
Proof.
  rewrite get_function_metadata_eq. split.
  - intros [md H]. destruct (return_type_name d) as [rtn|]; cbn [bind] in H; [|discriminate H].
    destruct (Wf.first_unknown _ _ _); [discriminate H|].
    destruct (Wf.repr_of types tp rtn) as [rt|] eqn:Hrt; [|discriminate H].
    split; [eauto|]. split; [done|]. intros Hn Hb. rewrite Hn, Hb in H. discriminate H.
  - intros ((rtn & Hr & [rt Hrt]) & Hu & Hn). rewrite Hr. cbn [bind]. rewrite Hu, Hrt.
    destruct (Spec.receiver (params d)); cbn [bind]; [eauto|].
    destruct (base_name d); [by destruct Hn|]. cbn [upper_first bind]. eauto.
Qed.

(** X5.  The resolver returns metadata exactly when the return type
    resolves to a type that has the representation asked for, every IN
    parameter other than the receiver has one too, and the display name is
    not empty when there is no receiver. *)
Theorem metadata_succeeds_iff (types : TypeTable) (d : FunctionDescriptor) (tp : TypeParam) :
  (∃ md, get_function_metadata types d tp = Ok md) ↔
  (∃ rtn, return_type_name d = Ok rtn ∧ is_Some (Wf.repr_of types tp rtn)) ∧
  Wf.first_unknown types tp (Spec.foreign_params (params d)) = None ∧
  (Spec.receiver (params d) = None → base_name d ≠ EmptyString).
Proof. apply metadata_succeeds_iff_aux. Qed.

Lemma metadata_raise types d tp e :
  get_function_metadata types d tp = Raise e →
  (∃ msg, e = StimulusError msg) ∨
  (e = IndexError ∧ base_name d = EmptyString ∧ Spec.receiver (params d) = None).
Proof.
  rewrite get_function_metadata_eq. intros H.
  destruct (return_type_name_no_crash d) as [[rtn Hr]|[msg Hr]]; rewrite Hr in H; cbn [bind] in H.
  2: { injection H as <-. eauto. }
  destruct (Wf.first_unknown _ _ _); [injection H as <-; left; eauto|].
  destruct (Wf.repr_of types tp rtn); [|injection H as <-; left; eauto].
  destruct (Spec.receiver (params d)); cbn [bind] in H; [discriminate H|].
  destruct (base_name d); cbn [upper_first bind] in H; [|discriminate H].
  injection H as <-. by right.
Qed.

(** X6.  The resolver raises nothing but [StimulusError], except for an
    [IndexError] when the method is static and its display name is empty;
    in particular a type missing from the type table never raises a
    [KeyError] there. *)
Theorem metadata_exceptions (types : TypeTable) (d : FunctionDescriptor)
    (tp : TypeParam) (e : exn) :
  get_function_metadata types d tp = Raise e →
  (∃ msg, e = StimulusError msg) ∨
  (e = IndexError ∧ base_name d = EmptyString ∧ Spec.receiver (params d) = None).
Proof. apply metadata_raise. Qed.

Lemma metadata_exceptions_witness :
  (∃ msg, IndexError = StimulusError msg) ∨
  (IndexError = IndexError ∧ base_name Examples2.igraph_ = EmptyString ∧
   Spec.receiver (params Examples2.igraph_) = None).
Proof.
  exact (metadata_exceptions Examples.table Examples2.igraph_ TP_JAVATYPE IndexError eq_refl).
Defined.

(** X7.  The metadata computed for the native representation and for
    the Java one, over any two type tables, agree on the name, the
    modifiers, the receiver, the static flag and the number of arguments:
    the declarations, which use the former, fit the header, which uses the
    latter. *)
Theorem metadata_shape_independent_of_representation (types types' : TypeTable)
    (d : FunctionDescriptor) (tp tp' : TypeParam) (m m' : Metadata) :
  get_function_metadata types d tp = Ok m →
  get_function_metadata types' d tp' = Ok m' →
  md_name m = md_name m' ∧ java_modifiers m = java_modifiers m' ∧
  self_name m = self_name m' ∧ is_static m = is_static m' ∧
  length (argument_types m) = length (argument_types m').
Proof.
  rewrite !get_function_metadata_eq. intros H H'.
  destruct (return_type_name d) as [rtn|]; cbn [bind] in *; [|discriminate H].
  destruct (Wf.first_unknown types _ _); [discriminate H|].
  destruct (Wf.first_unknown types' _ _); [discriminate H'|].
  destruct (Wf.repr_of types tp rtn); [|discriminate H].
  destruct (Wf.repr_of types' tp' rtn); [|discriminate H'].
  destruct (if Spec.receiver (params d) is Some _ then _ else _) as [nm|]; cbn [bind] in *;
    [|discriminate H].
  injection H as <-. injection H' as <-. cbn. by rewrite !length_map.
Qed.

Lemma metadata_shape_independent_of_representation_witness :
  let m := {| md_name := "abc"; java_modifiers := "public";
              md_return_type := "igraph_integer_t";
              argument_types := ["igraph_integer_t a"; "igraph_t c"];
              self_name := Some "b"; is_static := false; is_constructor := false |} in
  let m' := {| md_name := "abc"; java_modifiers := "public"; md_return_type := "long";
               argument_types := ["long a"; "Graph c"];
               self_name := Some "b"; is_static := false; is_constructor := false |} in
  md_name m = md_name m' ∧ java_modifiers m = java_modifiers m' ∧
  self_name m = self_name m' ∧ is_static m = is_static m' ∧
  length (argument_types m) = length (argument_types m').
Proof.
  exact (metadata_shape_independent_of_representation Examples.table Examples.table
           Examples.igraph_abc TP_CTYPE TP_JAVATYPE _ _ eq_refl eq_refl).
Defined.

Lemma drop_short n s : String.length s ≤ n → Str.drop n s = EmptyString.
Proof.
  revert s. induction n as [|n IH]; intros [|c s]; cbn [String.length Str.drop]; try done; [lia|].
  intros H. apply IH. lia.
Qed.

(** X2.  The first seven characters of the native name are dropped
    unseen: a function whose native name has at most seven characters and
    no NAME-JAVA key has an empty display name, so no metadata is computed
    for it when it has no receiver, and the method name is empty when it
    has one. *)
Theorem short_native_names_lose_their_name (types : TypeTable) (d : FunctionDescriptor)
    (tp : TypeParam) :
  String.length (fname d) ≤ 7 → NAME_JAVA d = None →
  base_name d = EmptyString ∧
  (Spec.receiver (params d) = None → ∀ md, get_function_metadata types d tp ≠ Ok md) ∧
  (∀ md, get_function_metadata types d tp = Ok md → md_name md = EmptyString).
Proof.
  intros Hl Hn.
  assert (base_name d = EmptyString) as Hb.
  { unfold base_name. rewrite Hn. cbn [default from_option id]. by rewrite (drop_short 7 _ Hl). }
  split; [done|]. split.
  - intros Hr md H.
    assert (∃ md, get_function_metadata types d tp = Ok md) as Hex by eauto.
    apply metadata_succeeds_iff_aux in Hex as (_ & _ & Hne). by apply Hne.
  - intros md H. apply metadata_inv in H as (_ & _ & _ & _ & _ & _ & _ & _ & _ & _ & _ & Hname).
    destruct (is_static md); [|by destruct Hname as [-> _]].
    destruct Hname as [Hu _]. rewrite Hb in Hu. discriminate Hu.
Qed.

Lemma short_native_names_lose_their_name_witness :
  base_name Examples2.vcount = EmptyString ∧
  md_name {| md_name := EmptyString; java_modifiers := "public"; md_return_type := "long";
             argument_types := []; self_name := Some "graph";
             is_static := false; is_constructor := false |} = EmptyString.
Proof.
  destruct (short_native_names_lose_their_name Examples.table Examples2.vcount TP_JAVATYPE)
    as (Hb & _ & Hm).
  - vm_compute. lia.
  - reflexivity.
  - split; [exact Hb|]. apply Hm. vm_compute. reflexivity.
Defined.

(** ** The chunks *)

(** X8.  The header raises exactly what the resolver raises for the Java
    representation, and otherwise is the JNI function named
    [Java_net_sf_igraph_Graph_] followed by the method name, whose
    parameters are the environment, then the class for a static method or
    the receiver object, then the arguments of the method. *)
Theorem chunk_header_follows_metadata (types : TypeTable) (d : FunctionDescriptor) :
  chunk_header types d
  = (md <- get_function_metadata types d TP_JAVATYPE; Ok (Wf.jni_header md (params d))).
Proof.
  unfold chunk_header.
  destruct (get_function_metadata types d TP_JAVATYPE) as [md|] eqn:H; cbn [bind]; [|done].
  destruct (metadata_receiver _ _ _ _ H) as [Hs _].
  apply metadata_inv in H as (_ & _ & _ & _ & _ & _ & _ & _ & _ & _ & Hst & _).
  unfold Wf.jni_header, Wf.jni_receiver. rewrite <- Hs. rewrite Hst.
  by destruct (self_name md).
Qed.

Lemma return_type_name_outputs d rtn :
  return_type_name d = Ok rtn → length (retpars (params d)) ≤ 1.
Proof.
  intros H. destruct (decide (2 ≤ length (retpars (params d)))) as [Hl|]; [|lia].
  rewrite (return_type_name_unsupported d (or_intror Hl)) in H. discriminate H.
Qed.

Lemma for_each_raise {A B} (f : A → result B) (l : list A) e :
  for_each f l = Raise e → ∃ x, x ∈ l ∧ f x = Raise e.
Proof.
  induction l as [|x l IH]; cbn [for_each]; [discriminate|].
  destruct (f x) as [y|e'] eqn:Hx; cbn [bind].
  - destruct (for_each f l) as [ys|e'']; cbn [bind]; [discriminate|].
    intros [= ->]. destruct (IH eq_refl) as (x' & Hin & Hx'). exists x'. split; [by right|done].
  - intros [= ->]. exists x. split; [by left|done].
Qed.

Lemma type_of_raise types p e : type_of types p = Raise e → e = KeyError ∧ types !! ptype p = None.
Proof. unfold type_of, subscript. destruct (types !! ptype p); [discriminate|]. by intros [= <-]. Qed.

Lemma outconv_par_raise types n p e :
  outconv_par types n p = Raise e → e = KeyError ∧ types !! ptype p = None.
Proof.
  unfold outconv_par. destruct (type_of types p) eqn:H; cbn [bind]; [discriminate|].
  intros [= <-]. by apply type_of_raise in H.
Qed.

(** X9.  A function whose metadata is computed has at most one output
    parameter, so its output conversion chunk never raises the "multiple
    outputs" error: the only exception it can raise is [KeyError]. *)
Theorem multiple_outputs_unreachable (types : TypeTable) (d : FunctionDescriptor)
    (tp : TypeParam) (md : Metadata) :
  get_function_metadata types d tp = Ok md →
  length (retpars (params d)) ≤ 1 ∧
  ∀ types' e, chunk_outconv types' d = Raise e → e = KeyError.
Proof.
  intros H. apply metadata_inv in H as (rtn & _ & _ & _ & Hr & _).
  pose proof (return_type_name_outputs d rtn Hr) as Hl. split; [done|].
  intros types' e. unfold chunk_outconv.
  destruct (for_each _ (params d)) as [convs|e'] eqn:Hc; cbn [bind].
  2: { intros [= ->]. apply for_each_raise in Hc as ([n p] & _ & Hx).
       by apply outconv_par_raise in Hx as [-> _]. }
  destruct (retpars (params d)) as [|[n p] [|? ?]]; cbn [length] in Hl; [| |lia].
  - unfold return_desc, subscript.
    destruct (return_type d) as [r|]; [|by intros [= <-]].
    destruct (types' !! r) as [rt|]; cbn [bind]; [|by intros [= <-]].
    destruct (OUTCONV rt) as [m|]; cbn [bind]; [|discriminate].
    destruct (m !! "OUT"); cbn [bind]; [discriminate|]. by intros [= <-].
  - discriminate.
Qed.

Lemma multiple_outputs_unreachable_witness :
  length (retpars (params Examples.igraph_ecount_into)) ≤ 1 ∧
  ∀ types' e, chunk_outconv types' Examples.igraph_ecount_into = Raise e → e = KeyError.
Proof.
  refine (multiple_outputs_unreachable Examples.table Examples.igraph_ecount_into
            TP_JAVATYPE _ _).
  vm_compute. reflexivity.
Defined.

Lemma for_each_unknown {A B} (f : A → result B) (l : list A) :
  (∀ x, (∃ y, f x = Ok y) ∨ f x = Raise KeyError) →
  Exists (λ x, f x = Raise KeyError) l → for_each f l = Raise KeyError.
Proof.
  intros Hf. induction 1 as [x l Hx|x l _ IH]; cbn [for_each].
  - by rewrite Hx.
  - destruct (Hf x) as [[y ->]| ->]; cbn [bind]; [|done]. by rewrite IH.
Qed.

Lemma inconv_par_known types d n p :
  match types !! ptype p with
  | Some _ => ∃ y, inconv_par types d n p = Ok y
  | None => inconv_par types d n p = Raise KeyError
  end.
Proof.
  unfold inconv_par, type_of, subscript. destruct (types !! ptype p); cbn [bind]; eauto.
Qed.

Lemma unknown_exists (types : TypeTable) (ps : Params) :
  ¬ Forall (Spec.known types) ps → Exists (λ np, types !! ptype np.2 = None) ps.
Proof.
  intros H. apply not_Forall_Exists in H; [|intros x; unfold Spec.known; apply _].
  eapply Exists_impl; [exact H|]. intros x Hx. unfold Spec.known in Hx. cbn in Hx.
  destruct (types !! ptype x.2); [|done]. by destruct Hx.
Qed.

Lemma chunk_inconv_known types d :
  Forall (Spec.known types) (params d) → ∃ text, chunk_inconv types d = Ok text.
Proof.
  intros Hk. unfold chunk_inconv.
  destruct (for_each_known (λ np, inconv_par types d np.1 np.2) (params d)) as (ys & -> & _);
    [|cbn [bind]; eauto].
  eapply Forall_impl; [exact Hk|]. intros [n p] [t Ht]. cbn [fst snd] in *.
  pose proof (inconv_par_known types d n p) as H. by rewrite Ht in H.
Qed.

Lemma chunk_call_known types d :
  Forall (Spec.known types) (params d) → ∃ text, chunk_call types d = Ok text.
Proof.
  intros Hk. unfold chunk_call.
  destruct (for_each_known (λ np, type_of types np.2) (params d)) as (ys & -> & _);
    [|cbn [bind]; eauto].
  eapply Forall_impl; [exact Hk|]. intros [n p] [t Ht]. exists t.
  unfold type_of, subscript. by rewrite Ht.
Qed.

(** X10.  The conversion and call chunks look every parameter's type up
    in the type table: when all are there the input conversion and the
    call chunk are computed, and when one is missing each of the three
    chunks raises [KeyError]. *)
Theorem chunks_need_every_parameter_type (types : TypeTable) (d : FunctionDescriptor) :
  (Forall (Spec.known types) (params d) →
     (∃ text, chunk_inconv types d = Ok text) ∧ (∃ text, chunk_call types d = Ok text)) ∧
  (¬ Forall (Spec.known types) (params d) →
     chunk_inconv types d = Raise KeyError ∧ chunk_call types d = Raise KeyError ∧
     chunk_outconv types d = Raise KeyError).
Proof.
  split.
  - intros Hk. split; [by apply chunk_inconv_known|by apply chunk_call_known].
  - intros Hk%unknown_exists. split; [|split].
    + unfold chunk_inconv. rewrite (for_each_unknown (λ np, inconv_par types d np.1 np.2)); [done| |].
      * intros [n p]. cbn [fst snd]. pose proof (inconv_par_known types d n p) as H.
        destruct (types !! ptype p); eauto.
      * eapply Exists_impl; [exact Hk|]. intros [n p] Hx. cbn [fst snd] in *.
        pose proof (inconv_par_known types d n p) as H. by rewrite Hx in H.
    + unfold chunk_call. rewrite (for_each_unknown (λ np, type_of types np.2)); [done| |].
      * intros [n p]. unfold type_of, subscript. destruct (types !! ptype (n, p).2); eauto.
      * eapply Exists_impl; [exact Hk|]. intros [n p] Hx. unfold type_of, subscript. by rewrite Hx.
    + unfold chunk_outconv.
      rewrite (for_each_unknown (λ np, outconv_par types np.1 np.2)); [done| |].
      * intros [n p]. unfold outconv_par, type_of, subscript. cbn [fst snd].
        destruct (types !! ptype p); cbn [bind]; eauto.
      * eapply Exists_impl; [exact Hk|]. intros [n p] Hx.
        unfold outconv_par, type_of, subscript. cbn [fst snd] in *. by rewrite Hx.
Qed.

Lemma subst_deps_without_percent i ds s :
  Str.contains "%" s = false → subst_deps i ds s = s.
Proof.
  intros Hs. revert i. induction ds as [|dep ds IH]; intros i; cbn [subst_deps]; [done|].
  change ("%C" +:+ str_of_nat (i + 1) +:+ "%")
    with (String "%"%char ("C" +:+ str_of_nat (i + 1) +:+ "%")).
  rewrite (replace_without_percent _ _ _ Hs). apply IH.
Qed.

Lemma indent_without_percent c :
  Str.contains "%" c = false → Str.contains "%" ("  " +:+ c) = false.
Proof.
  intros H. change ("  " +:+ c) with (String " "%char (String " "%char c)).
  cbn [Str.contains Str.starts_with].
  destruct (ascii_dec "%" " ") as [E|_]; [discriminate E|]. by rewrite H.
Qed.

(** X11.  The input conversion of one parameter: nothing when the type
    has no INCONV template for the parameter's mode, and a template with no
    percent sign is written as it is after two spaces, whatever the name
    and the dependencies of the parameter are. *)
Theorem inconv_without_placeholders (types : TypeTable) (d : FunctionDescriptor)
    (n : string) (p : ParamSpec) (t : TypeDesc) :
  types !! ptype p = Some t →
  (INCONV t ≫= (.!! mode_str p) = None → inconv_par types d n p = Ok EmptyString) ∧
  (∀ c, INCONV t ≫= (.!! mode_str p) = Some c → Str.contains "%" c = false →
        inconv_par types d n p = Ok ("  " +:+ c)).
Proof.
  intros Ht. unfold inconv_par, type_of, subscript. rewrite Ht. cbn [bind]. split.
  - intros ->. assert (∀ s, subst_deps 0 s EmptyString = EmptyString) as Hd.
    { intros s. by apply subst_deps_without_percent. }
    destruct (deps d !! n); by rewrite ?Hd.
  - intros c -> Hc. pose proof (indent_without_percent c Hc) as Hi.
    assert ((match deps d !! n with Some ds => subst_deps 0 ds ("  " +:+ c) | None => "  " +:+ c end)
            = "  " +:+ c) as ->.
    { destruct (deps d !! n); [by apply subst_deps_without_percent|done]. }
    by rewrite !(replace_without_percent _ _ _ Hi).
Qed.

Lemma inconv_without_placeholders_witness :
  inconv_par Examples2.converting Examples2.igraph_degree "vids"
    {| ptype := "VECTOR"; mode := IN |}
  = Ok "  Java_igraph_check(env);".
Proof.
  refine (proj2 (inconv_without_placeholders Examples2.converting Examples2.igraph_degree
                   "vids" {| ptype := "VECTOR"; mode := IN |} _ eq_refl)
            "Java_igraph_check(env);" eq_refl eq_refl).
Defined.

Lemma non_empty_all_empty (l : list string) :
  Forall (λ s, s = EmptyString) l → non_empty l = [].
Proof.
  unfold non_empty. induction 1 as [|x l -> _ IH]; [done|].
  rewrite filter_cons_False; [done|]. by intros H.
Qed.

(** X12.  When no parameter's type has an input conversion for the
    parameter's mode, the input conversion chunk is empty. *)
Theorem inconv_chunk_empty_without_conversions (types : TypeTable) (d : FunctionDescriptor) :
  Forall (Wf.no_inconv types) (params d) → chunk_inconv types d = Ok EmptyString.
Proof.
  intros H. unfold chunk_inconv.
  destruct (for_each_known (λ np, inconv_par types d np.1 np.2) (params d)) as (ys & -> & Hys).
  { eapply Forall_impl; [exact H|]. intros [n p] (t & Ht & Hn). cbn [fst snd] in *.
    exists EmptyString. by apply (inconv_without_placeholders types d n p t Ht). }
  cbn [bind]. rewrite non_empty_all_empty; [done|].
  clear -H Hys. induction Hys as [|[n p] y ps ys Hy _ IH]; [done|].
  apply Forall_cons in H as [(t & Ht & Hn) H]. constructor; [|by apply IH].
  cbn [fst snd] in *.
  rewrite (proj1 (inconv_without_placeholders types d n p t Ht) Hn) in Hy. by injection Hy.
Qed.

Lemma inconv_chunk_empty_without_conversions_witness :
  chunk_inconv Examples.table Examples.igraph_ecount_into = Ok EmptyString.
Proof.
  apply inconv_chunk_empty_without_conversions.
  repeat constructor; eexists; split; vm_compute; reflexivity.
Defined.

Lemma replace_keeps_space (old new s : string) :
  Str.replace (String "%"%char old) new (String " "%char s)
  = String " "%char (Str.replace (String "%"%char old) new s).
Proof.
  unfold Str.replace. cbn [Str.replace_from Str.starts_with].
  by destruct (ascii_dec "%" " ") as [E|_]; [discriminate E|].
Qed.

Lemma outconv_pars_known types (ps : Params) :
  Forall (Spec.known types) ps →
  ∃ convs, for_each (λ np, outconv_par types np.1 np.2) ps = Ok convs ∧
           Forall2 (λ np c, outconv_par types np.1 np.2 = Ok c) ps convs.
Proof.
  intros Hk. apply for_each_known. eapply Forall_impl; [exact Hk|]. intros np [t Ht].
  unfold outconv_par, type_of, subscript. rewrite Ht. cbn [bind]. eauto.
Qed.

(** X13.  With no output parameter the value the function returns is
    converted: after the conversions of the parameters comes the OUT
    template of the OUTCONV dictionary of the return type, with %C%
    replaced by [c__result] and %I% by [result]; a return type with no
    OUTCONV adds nothing, and an OUTCONV dictionary without the key OUT
    raises [KeyError]. *)
Theorem returned_value_conversion (types : TypeTable) (d : FunctionDescriptor)
    (r : string) (rt : TypeDesc) :
  retpars (params d) = [] →
  Forall (Spec.known types) (params d) →
  return_type d = Some r → types !! r = Some rt →
  ∃ convs,
    Forall2 (λ np c, outconv_par types np.1 np.2 = Ok c) (params d) convs ∧
    match OUTCONV rt with
    | None => chunk_outconv types d = Ok (Str.join Str.nl (non_empty convs))
    | Some m =>
        match m !! "OUT" with
        | None => chunk_outconv types d = Raise KeyError
        | Some c =>
            chunk_outconv types d
            = Ok (Str.join Str.nl
                    (non_empty convs
                     ++ [ "  " +:+ Str.replace "%I%" "result" (Str.replace "%C%" "c__result" c) ]))
        end
    end.
Proof.
  intros Hp Hk Hr Ht. destruct (outconv_pars_known types (params d) Hk) as (convs & Hc & Hcs).
  exists convs. split; [done|]. unfold chunk_outconv, return_desc, subscript.
  rewrite Hc, Hp, Hr, Ht. cbn [bind].
  destruct (OUTCONV rt) as [m|]; cbn [bind]; [|done].
  destruct (m !! "OUT") as [c|]; cbn [bind]; [|done].
  change ("  " +:+ c) with (String " "%char (String " "%char c)).
  rewrite !replace_keeps_space. done.
Qed.

Lemma returned_value_conversion_witness :
  ∃ convs,
    Forall2 (λ np c, outconv_par Examples2.converting np.1 np.2 = Ok c)
      (params Examples.igraph_vcount) convs ∧
    chunk_outconv Examples2.converting Examples.igraph_vcount
    = Ok (Str.join Str.nl (non_empty convs ++ [ "  result = (jlong) c__result;" ])).
Proof.
  refine (returned_value_conversion Examples2.converting Examples.igraph_vcount "INTEGER"
            _ eq_refl _ eq_refl eq_refl).
  repeat constructor; eexists; vm_compute; reflexivity.
Defined.

(** ** One function of a batch *)

Lemma unknown_param_none types (ps : Params) :
  unknown_param types ps = None → Forall (Spec.known types) ps.
Proof.
  unfold unknown_param. intros H. apply Forall_forall. intros np Hin.
  apply list_elem_of_In in Hin. pose proof (List.find_none _ _ H np Hin) as Hn.
  cbn in Hn. apply bool_decide_eq_false in Hn. unfold Spec.known.
  by destruct (types !! ptype np.2).
Qed.

Lemma known_filter {types} (P : string * ParamSpec → Prop) `{∀ x, Decision (P x)} (ps : Params) :
  Forall (Spec.known types) ps → Forall (Spec.known types) (filter P ps).
Proof.
  rewrite !Forall_forall. intros Hk x Hx. apply Hk. by apply list_elem_of_filter in Hx as [_ ?].
Qed.

Lemma chunk_declaration_ok types md d r :
  Forall (Spec.known types) (params d) →
  return_type d = Some r → is_Some (types !! r) →
  (is_static md = false → is_Some (self_name md)) →
  ∃ text, chunk_declaration types md d = Ok text.
Proof.
  intros Hk Hr [rt Hrt] Hs. unfold chunk_declaration.
  destruct (for_each_known (λ np, do_cpar types np.1 np.2) (params d)) as (cs & -> & _).
  { eapply Forall_impl; [exact Hk|]. intros np [t Ht].
    unfold do_cpar, type_of, subscript. rewrite Ht. cbn [bind]. eauto. }
  cbn [bind].
  destruct (for_each_known (λ np, do_jpar types np.1 np.2)
              (filter (λ np, mode np.2 = OUT) (params d))) as (js & -> & _).
  { eapply Forall_impl; [exact (known_filter _ _ Hk)|]. intros np [t Ht].
    unfold do_jpar, type_of, subscript. rewrite Ht. cbn [bind]. eauto. }
  cbn [bind]. unfold return_desc, subscript. rewrite Hr, Hrt. cbn [bind default from_option id].
  assert (∃ rt', types !! match filter (λ np, is_output np.2 = true) (params d) with
                         | [] => r | np :: _ => ptype np.2 end = Some rt') as [rt' ->].
  { pose proof (known_filter (λ np, is_output np.2 = true) _ Hk) as Hf.
    destruct (filter _ (params d)) as [|np ?]; [eauto|].
    apply Forall_cons in Hf as [[t Ht] _]. eauto. }
  cbn [bind]. destruct (is_static md); cbn [negb andb bind]; [eauto|].
  destruct (bool_decide _); cbn [bind]; [|eauto].
  destruct (Hs eq_refl) as [s ->]. cbn [bind]. eauto.
Qed.

Lemma chunk_outconv_ok types d n :
  length (retpars (params d)) ≤ n → n ≤ 1 →
  Forall (Spec.known types) (params d) →
  Wf.return_type_usable types d →
  ∃ text, chunk_outconv types d = Ok text.
Proof.
  intros Hl Hn Hk (r & rt & Hr & Hrt & Hm).
  destruct (outconv_pars_known types (params d) Hk) as (convs & Hc & _).
  unfold chunk_outconv, return_desc, subscript. rewrite Hc. cbn [bind].
  destruct (retpars (params d)) as [|[x p] [|? ?]]; cbn [length] in Hl; [| |lia].
  - rewrite Hr, Hrt. cbn [bind]. destruct (OUTCONV rt) as [m|]; cbn [bind]; [|eauto].
    destruct (Hm m eq_refl) as [c ->]. cbn [bind]. eauto.
  - eauto.
Qed.

Lemma metadata_receiver_present types d tp md :
  get_function_metadata types d tp = Ok md → is_static md = false → is_Some (self_name md).
Proof.
  intros H Hs. apply metadata_inv in H as (_ & _ & _ & _ & _ & _ & _ & _ & _ & _ & Hst & _).
  rewrite Hs in Hst. destruct (self_name md); [eauto|]. discriminate Hst.
Qed.

(** X14.  A function whose display name is not empty, whose return type
    is declared and in the type table, and whose return type has an OUT
    entry in its OUTCONV dictionary if it has that dictionary, never makes
    [generate_function] raise: code, a comment or a log entry is produced. *)
Theorem generate_function_never_raises (types : TypeTable) (d : FunctionDescriptor) (k : Sink) :
  base_name d ≠ EmptyString →
  Wf.return_type_usable types d →
  ∃ k', generate_function types d k = Ok k'.
Proof.
  intros Hn Hu. unfold generate_function.
  destruct (metadata_no_crash types d TP_CTYPE Hn) as [[md Hmd]|[msg ->]]; [|eauto].
  rewrite Hmd.
  destruct (unknown_param types (params d)) eqn:Hp; [eauto|].
  apply unknown_param_none in Hp.
  unfold assemble.
  destruct (metadata_no_crash types d TP_JAVATYPE Hn) as [[mj Hmj]|[msg Hmj]].
  2: { unfold chunk_header. rewrite Hmj. cbn [bind]. eauto. }
  assert (∃ h, chunk_header types d = Ok h) as [h ->].
  { unfold chunk_header. rewrite Hmj. cbn [bind].
    destruct (is_static mj) eqn:Hs; cbn [bind]; [eauto|].
    destruct (metadata_receiver_present _ _ _ _ Hmj Hs) as [s ->]. cbn [bind]. eauto. }
  cbn [bind].
  destruct Hu as (r & rt & Hr & Hrt & Hm).
  destruct (chunk_declaration_ok types md d r Hp Hr (ex_intro _ rt Hrt)
              (metadata_receiver_present _ _ _ _ Hmd)) as [dc ->].
  cbn [bind].
  destruct (chunk_inconv_known types d Hp) as [ic ->]. cbn [bind].
  destruct (chunk_call_known types d Hp) as [c ->]. cbn [bind].
  apply metadata_inv in Hmd as (rtn & _ & _ & _ & Hrtn & _).
  destruct (chunk_outconv_ok types d 1 (return_type_name_outputs d rtn Hrtn) (le_n 1) Hp
              (ex_intro _ r (ex_intro _ rt (conj Hr (conj Hrt Hm))))) as [oc ->].
  cbn [bind]. eauto.
Qed.

Lemma generate_function_never_raises_witness :
  ∃ k', generate_function Examples2.converting Examples.igraph_vcount Examples.nothing = Ok k'.
Proof.
  apply generate_function_never_raises.
  - vm_compute. discriminate.
  - eexists _, _. split; [reflexivity|]. split; [vm_compute; reflexivity|].
    intros m [= <-]. eexists. vm_compute. reflexivity.
Defined.

(** X15.  When [generate_function] returns it has either appended a
    non-empty text to the output and logged nothing, or logged one message
    and written nothing; what was written or logged before is kept. *)
Theorem generate_function_leaves_a_trace (types : TypeTable) (d : FunctionDescriptor)
    (k k' : Sink) :
  generate_function types d k = Ok k' →
  (∃ text, text ≠ EmptyString ∧ k' = write text k) ∨
  (∃ message, k' = log_error message k).
Proof.
  unfold generate_function. intros H.
  assert (∀ msg, comment msg ≠ EmptyString) as Hc by (intros msg; discriminate).
  assert (∀ res, template res ≠ EmptyString) as Ht by (intros res; discriminate).
  destruct (get_function_metadata types d TP_CTYPE) as [md|[msg| | |]]; try discriminate H.
  2: { injection H as <-. left. eauto. }
  destruct (unknown_param types (params d)); [injection H as <-; right; eauto|].
  destruct (assemble types md d) as [res|[msg| | |]]; try discriminate H;
    injection H as <-; left; eauto.
Qed.

Lemma generate_function_leaves_a_trace_witness :
  (∃ text, text ≠ EmptyString ∧
           {| out := EmptyString; log := ["Unknown type GRAPH in igraph_vcount"] |}
           = write text Examples.nothing) ∨
  (∃ message, {| out := EmptyString; log := ["Unknown type GRAPH in igraph_vcount"] |}
              = log_error message Examples.nothing).
Proof.
  apply (generate_function_leaves_a_trace Examples.integer_only Examples.igraph_vcount).
  vm_compute. reflexivity.
Defined.

(** ** The declarations and the registry *)

Lemma generate_lines_verbatim types fns lines out :
  Forall (λ line, Str.contains JavaJavaCodeGenerator.marker line = false) lines →
  JavaJavaCodeGenerator.generate_lines types fns lines out
  = Ok (out +:+ String.concat EmptyString lines).
Proof.
  intros H. revert out. induction H as [|line lines Hl _ IH]; intros out;
    cbn [JavaJavaCodeGenerator.generate_lines].
  - by rewrite append_empty_r.
  - rewrite Hl. cbn [bind]. rewrite IH, concat_cons. by rewrite append_assoc.
Qed.

(** X16.  A template none of whose lines holds the marker is copied to
    the output as it is, whatever the functions are. *)
Theorem template_without_marker_is_copied (types : TypeTable)
    (fns : list FunctionDescriptor) (fs : gmap string (list string))
    (path : string) (lines : list string) (out : string) :
  fs !! path = Some lines →
  Forall (λ line, Str.contains JavaJavaCodeGenerator.marker line = false) lines →
  JavaJavaCodeGenerator.generate types fns fs [path] out
  = Ok (out +:+ String.concat EmptyString lines).
Proof.
  intros Hp Hl. unfold JavaJavaCodeGenerator.generate. cbn [length]. rewrite Hp.
  by apply generate_lines_verbatim.
Qed.

Lemma template_without_marker_is_copied_witness :
  JavaJavaCodeGenerator.generate Examples.table [Examples2.igraph_; Examples.igraph_vcount]
    Examples2.plain_files ["Graph.java"] EmptyString
  = Ok ("class Graph {" +:+ Str.nl +:+ "}" +:+ Str.nl).
Proof.
  refine (template_without_marker_is_copied Examples.table _ Examples2.plain_files
            "Graph.java" Examples2.plain_lines EmptyString eq_refl _).
  repeat constructor.
Defined.

(** X17.  The only exception the declaration of one function lets
    through is the [IndexError] of a static method with an empty display
    name. *)
Theorem declaration_only_fails_on_empty_name (types : TypeTable)
    (d : FunctionDescriptor) (out : string) (e : exn) :
  JavaJavaCodeGenerator.generate_function types d out = Raise e →
  e = IndexError ∧ base_name d = EmptyString ∧ Spec.receiver (params d) = None.
Proof.
  unfold JavaJavaCodeGenerator.generate_function.
  destruct (get_function_metadata types d TP_JAVATYPE) as [md|e'] eqn:H; [discriminate|].
  apply metadata_raise in H as [[msg ->]|(-> & Hb & Hr)]; [discriminate|].
  by intros [= <-].
Qed.

Lemma declaration_only_fails_on_empty_name_witness :
  IndexError = IndexError ∧ base_name Examples2.igraph_ = EmptyString ∧
  Spec.receiver (params Examples2.igraph_) = None.
Proof.
  exact (declaration_only_fails_on_empty_name Examples.table Examples2.igraph_
           EmptyString IndexError eq_refl).
Defined.

Lemma languages_NoDup : NoDup languages.*1.
Proof. apply (bool_decide_unpack (NoDup languages.*1)). vm_compute. exact I. Qed.

Lemma updates_lookup_pair (lang : string) (g : CodeGenerator) :
  updates !! lang = Some g ↔ (lang, g) ∈ languages.
Proof. unfold updates. symmetry. apply elem_of_list_to_map. apply languages_NoDup. Qed.

(** X18.  Whatever has been asked for before, a language is answered
    with a class exactly when the pair is one of the registered ones, and
    each legacy name is answered as its new name is. *)
Theorem registry_lookup (history : list string) (lang : string) (g : CodeGenerator) :
  ((get_code_generator_factory_for_language lang (after history)).1 = Ok g
   ↔ (lang, g) ∈ languages) ∧
  (∀ legacy modern,
     (legacy, modern) ∈ [("RC", "r:c"); ("RInit", "r:init"); ("RR", "r:r"); ("Shell", "shell")] →
     (get_code_generator_factory_for_language legacy (after history)).1
     = (get_code_generator_factory_for_language modern (after history)).1).
Proof.
  split.
  - rewrite registry_after, <- updates_lookup_pair. unfold subscript.
    destruct (updates !! lang); split; intros H; by (injection H as -> || discriminate H).
  - intros legacy modern H. rewrite !registry_after.
    repeat (apply elem_of_cons in H as [[= -> ->]|H]; [by vm_compute|]).
    by apply elem_of_nil in H.
Qed.

(** X19.  After any query the registry is initialized and holds exactly
    the registered languages; [is_valid_language] leaves the same state as
    [get_code_generator_factory_for_language], and later queries do not
    change it. *)
Theorem registry_is_initialized_once (history : list string) (lang : string) :
  let st := (get_code_generator_factory_for_language lang (after history)).2 in
  st = {| _registry := updates; _registry_initialized := true |} ∧
  (is_valid_language lang (after history)).2 = st ∧
  ∀ lang', (get_code_generator_factory_for_language lang' st).2 = st.
Proof.
  intros st.
  assert (st = {| _registry := updates; _registry_initialized := true |}) as Hst.
  { subst st. destruct (after_states history) as [-> | ->]; reflexivity. }
  split; [done|]. split.
  - subst st. unfold is_valid_language.
    destruct (get_code_generator_factory_for_language lang (after history)) as [[g|[]] s]; done.
  - intros lang'. by rewrite Hst.
Qed.

(** * A declared return type, and failures in a batch *)

(** ** A declared return type beside one output parameter *)

Lemma unknown_type_is_not_unsupported name ty tp rtn :
  unknown_input_type name ty tp ≠ unsupported_calling_convention name ∧
  unknown_return_type name rtn ≠ unsupported_calling_convention name.
Proof.
  unfold unknown_input_type, unknown_return_type, unsupported_calling_convention.
  split; intros [= H]; apply (inj (String.app name)) in H; vm_compute in H; discriminate H.
Qed.

(** C8, as amended.  With exactly one parameter of mode OUT or INOUT, a
    declared return type is ignored: the name of the return type is the
    type of that parameter, the "calling convention unsupported" error is
    never raised, and the metadata, or the exception, is the one obtained
    with no return type declared.  The metadata is returned exactly when
    the type of that parameter and the types of the IN parameters other
    than the receiver have the representation asked for (and the display
    name is not empty when there is no receiver); its return type is then
    the representation of the parameter's type. *)
Theorem override_ignored_with_single_output (d : FunctionDescriptor)
    (n : string) (p : ParamSpec) (r : string) :
  retpars (params d) = [(n, p)] →
  return_type d = Some r →
  return_type_name d = Ok (ptype p) ∧
  (∀ types tp,
     get_function_metadata types d tp
     = get_function_metadata types (without_return_type d) tp) ∧
  (∀ types tp,
     get_function_metadata types d tp
     ≠ Raise (unsupported_calling_convention (base_name d))) ∧
  (∀ types tp,
     (∃ md, get_function_metadata types d tp = Ok md) ↔
     Wf.first_unknown types tp (Spec.foreign_params (params d)) = None ∧
     is_Some (Wf.repr_of types tp (ptype p)) ∧
     (Spec.receiver (params d) = None → base_name d ≠ EmptyString)) ∧
  (∀ types tp md,
     get_function_metadata types d tp = Ok md →
     Wf.repr_of types tp (ptype p) = Some (md_return_type md)).
Proof.
  intros Hp _. pose proof (return_type_name_single d n p Hp) as Hr.
  split; [done|]. split; [|split; [|split]].
  - intros types tp. unfold get_function_metadata.
    rewrite Hr, (return_type_name_single (without_return_type d) n p Hp). done.
  - intros types tp. rewrite get_function_metadata_eq, Hr. cbn [bind].
    destruct (unknown_type_is_not_unsupported (base_name d) EmptyString tp (ptype p)) as [_ Hu].
    destruct (Wf.first_unknown _ _ _) as [ty|].
    { intros E. apply (proj1 (unknown_type_is_not_unsupported (base_name d) ty tp EmptyString)).
      congruence. }
    destruct (Wf.repr_of types tp (ptype p)); [|intros E; apply Hu; congruence].
    destruct (Spec.receiver (params d)); cbn [bind]; [discriminate|].
    unfold upper_first, unsupported_calling_convention.
    destruct (base_name d); cbn [bind]; discriminate.
  - intros types tp. rewrite metadata_succeeds_iff_aux, Hr. split.
    + intros ((rtn & [= <-] & Hrt) & Hu & Hn). done.
    + intros (Hu & Hrt & Hn). eauto.
  - intros types tp md H.
    apply metadata_inv in H as (rtn & _ & _ & t & Hr' & _ & Ht & Hrt & _).
    rewrite Hr in Hr'. injection Hr' as <-. unfold Wf.repr_of. by rewrite Ht.
Qed.

Lemma override_ignored_with_single_output_witness :
  get_function_metadata Examples.table Examples.igraph_ecount_into TP_JAVATYPE
  = Ok {| md_name := "ecountInto"; java_modifiers := "public"; md_return_type := "long";
          argument_types := []; self_name := Some "graph";
          is_static := false; is_constructor := false |}.
Proof.
  rewrite (proj1 (proj2 (override_ignored_with_single_output
                           Examples.igraph_ecount_into "res"
                           {| ptype := "INTEGER"; mode := OUT |} "GRAPH"
                           eq_refl eq_refl))).
  vm_compute. reflexivity.
Defined.

(** C8, as stated, fails: [igraph_neighbors] has one OUT parameter, of a
    type that is not in the type table, and declares the return type
    INTEGER, which is; the declared type is ignored and no metadata is
    returned. *)
Lemma single_output_of_unknown_type_fails :
  retpars (params Examples2.igraph_neighbors) = [Examples.param "res" "VECTOR" OUT] ∧
  return_type Examples2.igraph_neighbors = Some "INTEGER" ∧
  get_function_metadata Examples.table Examples2.igraph_neighbors TP_JAVATYPE
  = Raise (StimulusError "neighbors: unknown return type VECTOR, skipping").
Proof. repeat split; vm_compute; reflexivity. Qed.

(** ** Failures of one function in a batch *)

Lemma unknown_param_known types (ps : Params) :
  Forall (Spec.known types) ps → unknown_param types ps = None.
Proof.
  unfold unknown_param. induction 1 as [|np ps [t Ht] _ IH]; [done|].
  cbn [List.find]. rewrite Ht. rewrite bool_decide_eq_false_2 by done. exact IH.
Qed.

Lemma resolves_metadata types d tp rtn :
  Wf.resolves types d tp rtn → ∃ md, get_function_metadata types d tp = Ok md.
Proof.
  intros (Hr & Hu & Hrt & Hn). apply metadata_succeeds_iff_aux. eauto.
Qed.

Lemma comment_unsupported name :
  comment (name +:+ ": calling convention unsupported yet")
  = "/* " +:+ name +:+ ": calling convention unsupported yet */" +:+ Str.nl.
Proof. unfold comment. by rewrite !append_assoc. Qed.

Lemma comment_unknown_input name ty tp :
  comment (name +:+ ": unknown input type " +:+ ty +:+ " (needs " +:+ type_param_str tp
           +:+ "), skipping")
  = "/* " +:+ name +:+ ": unknown input type " +:+ ty +:+ " (needs " +:+ type_param_str tp
    +:+ "), skipping */" +:+ Str.nl.
Proof. unfold comment. by rewrite !append_assoc. Qed.

Lemma comment_unknown_return name rtn :
  comment (name +:+ ": unknown return type " +:+ rtn +:+ ", skipping")
  = "/* " +:+ name +:+ ": unknown return type " +:+ rtn +:+ ", skipping */" +:+ Str.nl.
Proof. unfold comment. by rewrite !append_assoc. Qed.

Lemma generate_function_metadata_error types d k msg :
  get_function_metadata types d TP_CTYPE = Raise (StimulusError msg) →
  generate_function types d k = Ok (write (comment msg) k).
Proof. unfold generate_function. by intros ->. Qed.

Lemma generate_function_header_error types d k rtn msg :
  Wf.resolves types d TP_CTYPE rtn →
  Forall (Spec.known types) (params d) →
  get_function_metadata types d TP_JAVATYPE = Raise (StimulusError msg) →
  generate_function types d k = Ok (write (comment msg) k).
Proof.
  intros [md Hmd]%resolves_metadata Hk Hj. unfold generate_function.
  rewrite Hmd, (unknown_param_known _ _ Hk). unfold assemble, chunk_header.
  by rewrite Hj.
Qed.

Lemma declarations_app types pre post out :
  JavaJavaCodeGenerator.generate_functions types (pre ++ post) out
  = (out1 <- JavaJavaCodeGenerator.generate_functions types pre out;
     JavaJavaCodeGenerator.generate_functions types post out1).
Proof.
  revert out. induction pre as [|d pre IH]; intros out; [done|].
  cbn [app JavaJavaCodeGenerator.generate_functions].
  destruct (JavaJavaCodeGenerator.generate_function types d out); [|done]. cbn [bind]. apply IH.
Qed.

(** C3, as amended.  A function that fails with a [StimulusError] has a
    comment with the message written in place of its code, and
    [generate_function] returns: an unsupported calling convention, and a
    native representation missing for an input or for the return type,
    while the metadata is computed; a Java representation missing for an
    input or for the return type, while the header is.  When the metadata
    is computed and the type of a parameter is not in the type table, the
    error is logged and nothing is written.  In each case the functions
    after it in the batch are generated next, as they are, in the
    generator of declarations, after a function whose metadata fails. *)
Theorem function_failures_are_local (types : TypeTable) (d : FunctionDescriptor) (k : Sink) :
  let name := base_name d in
  let inputs := Spec.foreign_params (params d) in
  ((retpars (params d) = [] ∧ truthy (return_type d) = false) ∨
   2 ≤ length (retpars (params d)) →
     generate_function types d k
     = Ok (write ("/* " +:+ name +:+ ": calling convention unsupported yet */" +:+ Str.nl) k)) ∧
  (∀ rtn, return_type_name d = Ok rtn →
     (∀ ty, Wf.first_unknown types TP_CTYPE inputs = Some ty →
        generate_function types d k
        = Ok (write ("/* " +:+ name +:+ ": unknown input type " +:+ ty
                     +:+ " (needs CTYPE), skipping */" +:+ Str.nl) k)) ∧
     (Wf.first_unknown types TP_CTYPE inputs = None →
      Wf.repr_of types TP_CTYPE rtn = None →
        generate_function types d k
        = Ok (write ("/* " +:+ name +:+ ": unknown return type " +:+ rtn
                     +:+ ", skipping */" +:+ Str.nl) k)) ∧
     (Wf.resolves types d TP_CTYPE rtn →
        (∀ np, unknown_param types (params d) = Some np →
           generate_function types d k
           = Ok {| out := out k;
                   log := log k ++ ["Unknown type " +:+ ptype np.2 +:+ " in " +:+ fname d] |}) ∧
        (Forall (Spec.known types) (params d) →
           (∀ ty, Wf.first_unknown types TP_JAVATYPE inputs = Some ty →
              generate_function types d k
              = Ok (write ("/* " +:+ name +:+ ": unknown input type " +:+ ty
                           +:+ " (needs JAVATYPE), skipping */" +:+ Str.nl) k)) ∧
           (Wf.first_unknown types TP_JAVATYPE inputs = None →
            Wf.repr_of types TP_JAVATYPE rtn = None →
              generate_function types d k
              = Ok (write ("/* " +:+ name +:+ ": unknown return type " +:+ rtn
                           +:+ ", skipping */" +:+ Str.nl) k))))) ∧
  (∀ pre post k0 k',
     generate types pre k0 = Ok k → generate_function types d k = Ok k' →
     generate types (pre ++ d :: post) k0 = generate types post k') ∧
  (∀ msg pre post out0 out,
     get_function_metadata types d TP_JAVATYPE = Raise (StimulusError msg) →
     JavaJavaCodeGenerator.generate_functions types pre out0 = Ok out →
     JavaJavaCodeGenerator.generate_functions types (pre ++ d :: post) out0
     = JavaJavaCodeGenerator.generate_functions types post
         (out +:+ "    // " +:+ msg +:+ Str.nl)).
Proof.
  intros name inputs. subst name inputs. split; [|split; [|split]].
  - intros H. rewrite <- comment_unsupported. apply generate_function_metadata_error.
    rewrite get_function_metadata_eq, (return_type_name_unsupported d H). done.
  - intros rtn Hr. split; [|split].
    + intros ty Hu. rewrite <- (comment_unknown_input _ _ TP_CTYPE).
      apply generate_function_metadata_error.
      by rewrite get_function_metadata_eq, Hr; cbn [bind]; rewrite Hu.
    + intros Hu Hn. rewrite <- comment_unknown_return.
      apply generate_function_metadata_error.
      by rewrite get_function_metadata_eq, Hr; cbn [bind]; rewrite Hu, Hn.
    + intros Hres. split.
      * intros np Hp. destruct (resolves_metadata _ _ _ _ Hres) as [md Hmd].
        unfold generate_function. by rewrite Hmd, Hp.
      * intros Hk. split.
        -- intros ty Hu. rewrite <- (comment_unknown_input _ _ TP_JAVATYPE).
           apply (generate_function_header_error _ _ _ rtn _ Hres Hk).
           by rewrite get_function_metadata_eq, Hr; cbn [bind]; rewrite Hu.
        -- intros Hu Hn. rewrite <- comment_unknown_return.
           apply (generate_function_header_error _ _ _ rtn _ Hres Hk).
           by rewrite get_function_metadata_eq, Hr; cbn [bind]; rewrite Hu, Hn.
  - intros pre post k0 k' Hpre Hd. rewrite generate_app, Hpre. cbn [bind generate].
    by rewrite Hd.
  - intros msg pre post out0 out Hm Hpre. rewrite declarations_app, Hpre.
    cbn [bind JavaJavaCodeGenerator.generate_functions].
    unfold JavaJavaCodeGenerator.generate_function at 1. rewrite Hm. cbn [bind].
    unfold JavaJavaCodeGenerator.comment. done.
Qed.

Lemma function_failures_are_local_witness :
  generate Examples.native_only [Examples.igraph_two_outputs; Examples.igraph_vcount]
    Examples.nothing
  = Ok {| out := "/* twoOutputs: calling convention unsupported yet */" +:+ Str.nl
                 +:+ "/* vcount: unknown return type INTEGER, skipping */" +:+ Str.nl;
          log := [] |}.
Proof.
  pose proof (function_failures_are_local Examples.native_only Examples.igraph_two_outputs
                Examples.nothing) as (H1 & _ & _).
  pose proof (function_failures_are_local Examples.native_only Examples.igraph_vcount
                (write ("/* twoOutputs: calling convention unsupported yet */" +:+ Str.nl)
                   Examples.nothing)) as (_ & H2 & H3 & _).
  destruct (H2 "INTEGER" eq_refl) as (_ & _ & H4).
  assert (Wf.resolves Examples.native_only Examples.igraph_vcount TP_CTYPE "INTEGER") as Hres.
  { repeat split; try (vm_compute; reflexivity). - by eexists. - discriminate. }
  destruct (H4 Hres) as (_ & H5).
  assert (Forall (Spec.known Examples.native_only) (params Examples.igraph_vcount)) as Hk.
  { repeat constructor. by eexists. }
  destruct (H5 Hk) as (_ & H6).
  assert (generate Examples.native_only [Examples.igraph_two_outputs] Examples.nothing
          = Ok (write ("/* twoOutputs: calling convention unsupported yet */" +:+ Str.nl)
                  Examples.nothing)) as Hpre.
  { cbn [generate]. rewrite H1; [reflexivity|]. right. vm_compute. lia. }
  exact (eq_trans (H3 [Examples.igraph_two_outputs] [] Examples.nothing _ Hpre
                     (H6 eq_refl eq_refl)) eq_refl).
Defined.

(** C3, as stated, fails.  The type GRAPH of the parameter of
    [igraph_vcount] is not in the type table: the error is logged and no
    comment is written.  The return type ERROR of [igraph_count_errors] is
    not in the type table: its look-up among the declarations raises a
    [KeyError], which [generate_function] does not catch, and the batch
    ends there. *)
Lemma unknown_types_outside_the_comment :
  generate_function Examples.integer_only Examples.igraph_vcount Examples.nothing
  = Ok {| out := EmptyString; log := ["Unknown type GRAPH in igraph_vcount"] |} ∧
  generate_function Examples.table Examples.igraph_count_errors Examples.nothing
  = Raise KeyError ∧
  generate Examples.table [Examples.igraph_count_errors; Examples.igraph_vcount]
    Examples.nothing
  = Raise KeyError.
Proof. repeat split; vm_compute; reflexivity. Qed.
